(** * PrivacyGuard: the empirical complexity analysis of [scripts/plot_complexity.py]

    A shallow embedding of the aggregation, model fitting, scoring and
    selection code of [plot_complexity.py], and the properties of it that
    the specification states.

    Modelling conventions.
    - The control flow of the script (grouping, the loops over methods and
      models, exceptions, selection, the report) is stated over [num]: a
      Python float as an exact rational, or one of the IEEE special values
      [+inf], [-inf], [nan].  The special values are modelled because the
      code relies on them ([best_r2 = -np.inf], the standard deviation of a
      single sample, [np.log] of a non-positive number).  Rounding is not
      part of [num]: the value of a computed mean is stated up to a
      tolerance, not as an exact number.
    - What depends on the machine arithmetic is stated in module [F64]: the
      scoring lines 106-108 over binary64 floats with numpy's pairwise
      summation, and the model functions of lines 34-48 on the int64 sizes
      line 105 passes them, where integer arithmetic wraps modulo 2^64.
    - A numpy array is a [list num]; arithmetic between arrays follows
      numpy's broadcasting rule for one-dimensional arrays and raises
      [ValueError] when the shapes do not match.
    - A Python exception is a value of [exn] carried by [result]; [try] /
      [except Exception] is [try_except].
    - A Python [dict] keeps insertion order: it is an association list with
      [dict_set] and [dict_get].
    - [scipy.optimize.curve_fit], [np.log], [np.sqrt] on positive rationals
      and the float formatting of the report are library code: they are
      parameters of the development.
    - Plotting and the reading and writing of files are left out. *)

From Stdlib Require Import List String ZArith QArith Qminmax Qabs Bool Lia Lqa.
From Stdlib Require Import Permutation Sorted Setoid Morphisms.
From Stdlib Require PrimFloat Uint63.
Import ListNotations.

Open Scope string_scope.
Open Scope Q_scope.

(** ** Python: exceptions, results, dictionaries, loops *)

Module Py.

(** The subclasses of [Exception] the code can meet. *)
Inductive exn : Type :=
| TypeError
| ValueError
| RuntimeError
| OtherError.

Inductive result (A : Type) : Type :=
| Ok (a : A)
| Raise (e : exn).

Arguments Ok {A} a.
Arguments Raise {A} e.

Definition bind {A B : Type} (r : result A) (k : A -> result B) : result B :=
  match r with
  | Ok a => k a
  | Raise e => Raise e
  end.

(** [try: body / except Exception as e: handler e]. *)
Definition try_except {A : Type} (body : result A) (handler : exn -> result A)
  : result A :=
  match body with
  | Ok a => Ok a
  | Raise e => handler e
  end.

Definition raises {A : Type} (r : result A) : Prop :=
  match r with
  | Ok _ => False
  | Raise _ => True
  end.

(** [for x in l: s = body s x], where the body may raise. *)
Fixpoint for_each {A S : Type} (l : list A) (body : S -> A -> result S) (s : S)
  : result S :=
  match l with
  | [] => Ok s
  | x :: l' => bind (body s x) (for_each l' body)
  end.

(** An insertion-ordered dictionary with string keys. *)
Definition dict (V : Type) : Type := list (string * V).

(** [d[k] = v]: an existing key keeps its place, a new key goes last. *)
Fixpoint dict_set {V : Type} (k : string) (v : V) (d : dict V) : dict V :=
  match d with
  | [] => [(k, v)]
  | (k', v') :: d' =>
      if String.eqb k k' then (k, v) :: d' else (k', v') :: dict_set k v d'
  end.

(** [d.get(k)]. *)
Fixpoint dict_get {V : Type} (k : string) (d : dict V) : option V :=
  match d with
  | [] => None
  | (k', v) :: d' => if String.eqb k k' then Some v else dict_get k d'
  end.

Definition keys {V : Type} (d : dict V) : list string := map fst d.

(** [dict(pairs)]. *)
Definition dict_of {V : Type} (pairs : list (string * V)) : dict V :=
  fold_left (fun d kv => dict_set (fst kv) (snd kv) d) pairs [].

End Py.

Import Py.

Notation "x <- c1 ;; c2" := (bind c1 (fun x => c2))
  (at level 61, c1 at next level, right associativity).

(** ** numpy: floats with the IEEE special values, one-dimensional arrays *)

Module Np.

Inductive num : Type :=
| Fin (q : Q)
| PInf
| NInf
| NaN.

Definition Qltb (x y : Q) : bool := negb (Qle_bool y x).

Definition is_fin (x : num) : bool :=
  match x with
  | Fin _ => true
  | _ => false
  end.

(** Equality of floats as numbers ([nan] is related to itself here: this is
    the equality of the model's values, not Python's [==]). *)
Definition num_eq (x y : num) : Prop :=
  match x, y with
  | Fin a, Fin b => a == b
  | PInf, PInf => True
  | NInf, NInf => True
  | NaN, NaN => True
  | _, _ => False
  end.

Definition neg (x : num) : num :=
  match x with
  | Fin a => Fin (- a)
  | PInf => NInf
  | NInf => PInf
  | NaN => NaN
  end.

Definition add (x y : num) : num :=
  match x, y with
  | Fin a, Fin b => Fin (a + b)
  | NaN, _ => NaN
  | _, NaN => NaN
  | PInf, NInf => NaN
  | NInf, PInf => NaN
  | PInf, _ => PInf
  | _, PInf => PInf
  | NInf, _ => NInf
  | _, NInf => NInf
  end.

Definition sub (x y : num) : num := add x (neg y).

Definition inf_of_sign (positive : bool) : num :=
  if positive then PInf else NInf.

(** The product of an infinity of the given sign with [y]. *)
Definition mul_inf (positive : bool) (y : num) : num :=
  match y with
  | Fin b =>
      if Qltb 0 b then inf_of_sign positive
      else if Qltb b 0 then inf_of_sign (negb positive)
      else NaN
  | PInf => inf_of_sign positive
  | NInf => inf_of_sign (negb positive)
  | NaN => NaN
  end.

Definition mul (x y : num) : num :=
  match x, y with
  | Fin a, Fin b => Fin (a * b)
  | NaN, _ => NaN
  | _, NaN => NaN
  | PInf, _ => mul_inf true y
  | NInf, _ => mul_inf false y
  | _, PInf => mul_inf true x
  | _, NInf => mul_inf false x
  end.

(** Division.  A zero divisor is taken as [+0.0]; the code divides only by
    a positive number ([ss_tot > 0]) or by a length. *)
Definition div (x y : num) : num :=
  match x, y with
  | NaN, _ => NaN
  | _, NaN => NaN
  | Fin a, Fin b =>
      if Qeq_bool b 0
      then (if Qltb 0 a then PInf else if Qltb a 0 then NInf else NaN)
      else Fin (a / b)
  | Fin _, _ => Fin 0
  | PInf, Fin b => if Qltb b 0 then NInf else PInf
  | NInf, Fin b => if Qltb b 0 then PInf else NInf
  | _, _ => NaN
  end.

(** [x ** k] for a small literal exponent. *)
Fixpoint pow (x : num) (k : nat) : num :=
  match k with
  | O => Fin 1
  | S O => x
  | S k' => mul x (pow x k')
  end.

(** [x > y]: false as soon as one side is [nan]. *)
Definition gt (x y : num) : bool :=
  match x, y with
  | NaN, _ => false
  | _, NaN => false
  | Fin a, Fin b => Qltb b a
  | PInf, PInf => false
  | PInf, _ => true
  | NInf, _ => false
  | Fin _, NInf => true
  | Fin _, PInf => false
  end.

Definition array : Type := list num.

Definition np_sum (a : array) : num := fold_right add (Fin 0) a.

Definition of_nat (n : nat) : num := Fin (inject_Z (Z.of_nat n)).

(** [np.mean]: [nan] (with a warning) on an empty array. *)
Definition np_mean (a : array) : num :=
  match a with
  | [] => NaN
  | _ => div (np_sum a) (of_nat (List.length a))
  end.

Fixpoint map2 {A B C : Type} (f : A -> B -> C) (xs : list A) (ys : list B)
  : list C :=
  match xs, ys with
  | x :: xs', y :: ys' => f x y :: map2 f xs' ys'
  | _, _ => []
  end.

(** A binary operation on two one-dimensional arrays: equal shapes go
    element by element, a one-element array is stretched, any other pair of
    shapes raises [ValueError] (operands could not be broadcast together). *)
Definition broadcast (f : num -> num -> num) (xs ys : array) : result array :=
  if Nat.eqb (List.length xs) (List.length ys) then Ok (map2 f xs ys)
  else match xs, ys with
       | [x], _ => Ok (map (f x) ys)
       | _, [y] => Ok (map (fun x => f x y) xs)
       | _, _ => Raise ValueError
       end.

Definition arr_sub (xs ys : array) : result array := broadcast sub xs ys.

(** [a - s] for a scalar [s]. *)
Definition arr_sub_scalar (a : array) (s : num) : array :=
  map (fun x => sub x s) a.

(** [a ** 2]. *)
Definition arr_sq (a : array) : array := map (fun x => pow x 2) a.

Section Libm.

(** The value the C library's [log] and [sqrt] return on a positive
    rational. *)
Variable ln : Q -> Q.
Variable sqrt : Q -> Q.

(** [np.log]: [-inf] at zero and [nan] below it (each with a warning, not
    an exception). *)
Definition np_log (x : num) : num :=
  match x with
  | Fin q => if Qltb 0 q then Fin (ln q) else if Qeq_bool q 0 then NInf else NaN
  | PInf => PInf
  | NInf => NaN
  | NaN => NaN
  end.

(** [np.sqrt]: [nan] below zero. *)
Definition np_sqrt (x : num) : num :=
  match x with
  | Fin q => if Qltb q 0 then NaN else Fin (sqrt q)
  | PInf => PInf
  | NInf => NaN
  | NaN => NaN
  end.

End Libm.

End Np.

Import Np.

(** ** pandas: the columns and the table operations the script uses *)

Module Pd.

(** Sort by a boolean order; the order among equal keys is not fixed by
    pandas and no statement below depends on it. *)
Fixpoint insert_sorted {A : Type} (leb : A -> A -> bool) (x : A) (l : list A)
  : list A :=
  match l with
  | [] => [x]
  | y :: l' => if leb x y then x :: l else y :: insert_sorted leb x l'
  end.

Definition sort_by {A : Type} (leb : A -> A -> bool) (l : list A) : list A :=
  fold_right (insert_sorted leb) [] l.

(** [Series.unique()]: the distinct values in order of first appearance. *)
Fixpoint unique {A : Type} (eqb : A -> A -> bool) (l : list A) : list A :=
  match l with
  | [] => []
  | x :: l' => x :: filter (fun y => negb (eqb x y)) (unique eqb l')
  end.

Definition Qsum (l : list Q) : Q := fold_right Qplus 0 l.

Definition Qlen (l : list Q) : Q := inject_Z (Z.of_nat (List.length l)).

Definition Qmean (l : list Q) : Q := Qsum l / Qlen l.

(** The aggregations of a group of finite values. *)
Definition agg_mean (ts : list Q) : num :=
  match ts with
  | [] => NaN
  | _ => Fin (Qmean ts)
  end.

Definition agg_min (ts : list Q) : num :=
  match ts with
  | [] => NaN
  | t :: ts' => Fin (fold_left Qmin ts' t)
  end.

Definition agg_max (ts : list Q) : num :=
  match ts with
  | [] => NaN
  | t :: ts' => Fin (fold_left Qmax ts' t)
  end.

(** ['std']: the sample standard deviation (one degree of freedom removed),
    [nan] for fewer than two values. *)
Definition agg_std (sqrt : Q -> Q) (ts : list Q) : num :=
  if Nat.leb (List.length ts) 1 then NaN
  else
    let m := Qmean ts in
    Fin (sqrt (Qsum (map (fun t => (t - m) * (t - m)) ts) / (Qlen ts - 1))).

End Pd.

Import Pd.

(** ** The script *)

(** A row of the benchmark table [df] (the columns the script reads); the
    percentage is a whole number of percent, the time a finite number. *)
Record measurement : Type := {
  m_method : string;
  m_percentage : Z;
  m_num_instances : Z;
  time_ms : Q
}.

(** A row of [avg_df]. *)
Record avg_row : Type := {
  method : string;
  percentage : Z;
  num_instances : Z;
  avg_time_ms : num;
  std_time_ms : num;
  min_time_ms : num;
  max_time_ms : num
}.

(** The group key of [df.groupby(['method', 'percentage', 'num_instances'])]. *)
Definition group_key : Type := (string * Z * Z)%type.

Definition key_of (m : measurement) : group_key :=
  (m_method m, m_percentage m, m_num_instances m).

Definition row_key (r : avg_row) : group_key :=
  (method r, percentage r, num_instances r).

Definition key_eqb (k1 k2 : group_key) : bool :=
  let '(a1, p1, n1) := k1 in
  let '(a2, p2, n2) := k2 in
  String.eqb a1 a2 && Z.eqb p1 p2 && Z.eqb n1 n2.

(** Group keys come out sorted, column by column. *)
Definition key_leb (k1 k2 : group_key) : bool :=
  let '(a1, p1, n1) := k1 in
  let '(a2, p2, n2) := k2 in
  match String.compare a1 a2 with
  | Lt => true
  | Gt => false
  | Eq =>
      match Z.compare p1 p2 with
      | Lt => true
      | Gt => false
      | Eq => Z.leb n1 n2
      end
  end.

Definition group_keys (df : list measurement) : list group_key :=
  sort_by key_leb (unique key_eqb (map key_of df)).

(** The [time_ms] values of the rows of one group. *)
Definition group_times (df : list measurement) (k : group_key) : list Q :=
  map time_ms (filter (fun m => key_eqb (key_of m) k) df).


(** A callable of the catalog, applied as [f(n_values, *popt)]: it raises
    [TypeError] when the number of arguments is not the function's. *)
Definition callable : Type := array -> list Q -> result array.

Definition call2 (f : num -> num -> num -> num) : callable :=
  fun n args =>
    match args with
    | [a; b] => Ok (map (fun x => f x (Fin a) (Fin b)) n)
    | _ => Raise TypeError
    end.

Definition call3 (f : num -> num -> num -> num -> num) : callable :=
  fun n args =>
    match args with
    | [a; b; c] => Ok (map (fun x => f x (Fin a) (Fin b) (Fin c)) n)
    | _ => Raise TypeError
    end.

(** One entry of the dictionary [fit_complexity_models] returns. *)
Record fit : Type := {
  params : dict Q;
  r_squared : num;
  rmse : num;
  predictions : array;
  model_func : callable;
  popt : list Q
}.

(** One entry of [analysis_results]. *)
Record analysis : Type := {
  fit_results : dict (option fit);
  best_model : option string;
  best_r2 : num
}.

Section Script.

Variable ln : Q -> Q.
Variable sqrt : Q -> Q.

(** [curve_fit f xdata ydata p0 maxfev]: the fitted parameters (finite
    numbers), or the exception raised (no convergence within [maxfev]
    evaluations, fewer points than parameters, values that are not finite,
    shapes that do not match, ...). *)
Variable curve_fit : callable -> array -> array -> list Q -> Z -> result (list Q).

(** [f"{x:.4f}"] and the [str] of a parameter dictionary. *)
Variable format_4f : num -> string.
Variable format_params : dict Q -> string.

(** Complexity model functions. *)
Definition linear (n a b : num) : num := add (mul a n) b.

Definition quadratic (n a b c : num) : num :=
  add (add (mul a (pow n 2)) (mul b n)) c.

Definition nlogn (n a b : num) : num :=
  add (mul (mul a n) (np_log ln (add n (Fin 1)))) b.

Definition logarithmic (n a b : num) : num :=
  add (mul a (np_log ln (add n (Fin 1)))) b.

Definition cubic (n a b c d : num) : num :=
  add (add (add (mul a (pow n 3)) (mul b (pow n 2))) (mul c n)) d.

(** Model definitions, in declared order. *)
Definition MODELS : dict (callable * list string) :=
  [ ("O(n)", (call2 linear, ["a"; "b"]));
    ("O(n²)", (call3 quadratic, ["a"; "b"; "c"]));
    ("O(n log n)", (call2 nlogn, ["a"; "b"]));
    ("O(log n)", (call2 logarithmic, ["a"; "b"])) ].

(** [load_data]: the table and its aggregation by method, percentage and
    number of instances. *)
Definition aggregate (df : list measurement) (k : group_key) : avg_row :=
  let ts := group_times df k in
  {| method := fst (fst k);
     percentage := snd (fst k);
     num_instances := snd k;
     avg_time_ms := agg_mean ts;
     std_time_ms := agg_std sqrt ts;
     min_time_ms := agg_min ts;
     max_time_ms := agg_max ts |}.

Definition load_data (df : list measurement)
  : list measurement * list avg_row :=
  (df, map (aggregate df) (group_keys df)).

(** Lines 106-108: the coefficient of determination. *)
Definition score_r_squared (time_values predictions : array) : result num :=
  d <- arr_sub time_values predictions ;;
  let ss_res := np_sum (arr_sq d) in
  let ss_tot :=
    np_sum (arr_sq (arr_sub_scalar time_values (np_mean time_values))) in
  Ok (if gt ss_tot (Fin 0) then sub (Fin 1) (div ss_res ss_tot) else Fin 0).

(** Line 111: the root-mean-square error. *)
Definition score_rmse (time_values predictions : array) : result num :=
  d <- arr_sub time_values predictions ;;
  Ok (np_sqrt sqrt (np_mean (arr_sq d))).

(** The body of the [try] block for one catalog entry. *)
Definition fit_model (model_func : callable) (param_names : list string)
  (n_values time_values : array) : result fit :=
  let p0 := repeat 1 (List.length param_names) in
  popt <- curve_fit model_func n_values time_values p0 10000%Z ;;
  predictions <- model_func n_values popt ;;
  r_squared <- score_r_squared time_values predictions ;;
  rmse <- score_rmse time_values predictions ;;
  Ok {| params := dict_of (combine param_names popt);
        r_squared := r_squared;
        rmse := rmse;
        predictions := predictions;
        model_func := model_func;
        popt := popt |}.

Definition fit_complexity_models (n_values time_values : array)
  : result (dict (option fit)) :=
  for_each MODELS
    (fun results entry =>
       let '(model_name, (model_func, param_names)) := entry in
       try_except
         (r <- fit_model model_func param_names n_values time_values ;;
          Ok (dict_set model_name (Some r) results))
         (fun e => Ok (dict_set model_name None results)))
    [].

(** One turn of the loop of [determine_best_model]. *)
Definition select_step (best : option string * num)
  (entry : string * option fit) : option string * num :=
  let '(best_model, best_r2) := best in
  let '(model_name, result) := entry in
  match result with
  | Some r =>
      if gt (r_squared r) best_r2
      then (Some model_name, r_squared r)
      else (best_model, best_r2)
  | None => (best_model, best_r2)
  end.

Definition determine_best_model (fit_results : dict (option fit))
  : option string * num :=
  fold_left select_step fit_results (None, NInf).

(** The rows of one method, sorted by [num_instances]. *)
Definition method_data (avg_df : list avg_row) (m : string) : list avg_row :=
  sort_by (fun r1 r2 => Z.leb (num_instances r1) (num_instances r2))
    (filter (fun r => String.eqb (method r) m) avg_df).

Definition n_values_of (rows : list avg_row) : array :=
  map (fun r => Fin (inject_Z (num_instances r))) rows.

(** The analysis of [plot_individual_methods] (the fit is done on the
    times in milliseconds). *)
Definition plot_individual_methods (avg_df : list avg_row)
  : result (dict analysis) :=
  let methods := unique String.eqb (map method avg_df) in
  for_each methods
    (fun analysis_results m =>
       let rows := method_data avg_df m in
       fit_results <-
         fit_complexity_models (n_values_of rows) (map avg_time_ms rows) ;;
       let '(best_model, best_r2) := determine_best_model fit_results in
       Ok (dict_set m
             {| fit_results := fit_results;
                best_model := best_model;
                best_r2 := best_r2 |}
             analysis_results))
    [].

(** [f"{x}"] of the selected model: [None] prints as its name. *)
Definition format_model (m : option string) : string :=
  match m with
  | Some name => name
  | None => "None"
  end.

(** [fit_results.get(best_model)], with [None] for a missing model. *)
Definition get_best (a : analysis) : option fit :=
  match best_model a with
  | Some name =>
      match dict_get name (fit_results a) with
      | Some (Some r) => Some r
      | _ => None
      end
  | None => None
  end.

(** Lines 343-351 of [generate_summary_report]: what is written for one
    method, and for all of them. *)
Definition report_method (m : string) (a : analysis) : list string :=
  [ "Method: " ++ m;
    "  Best fit model: " ++ format_model (best_model a);
    "  R² score: " ++ format_4f (best_r2 a) ]
  ++ match get_best a with
     | Some r => [ "  Parameters: " ++ format_params (params r) ]
     | None => []
     end
  ++ [ "" ].

Definition generate_summary_report (analysis_results : dict analysis)
  : list string :=
  flat_map (fun e => report_method (fst e) (snd e)) analysis_results.

(** Lines 433, 446 and 463 of [main]. *)
Definition main (df : list measurement)
  : result (dict analysis * list string) :=
  let '(_, avg_df) := load_data df in
  analysis_results <- plot_individual_methods avg_df ;;
  Ok (analysis_results, generate_summary_report analysis_results).

(** Closed forms of the two loops, used to state what they compute. *)

(** What the [try] / [except] of one catalog entry leaves in [results]. *)
Definition marker (r : result fit) : option fit :=
  match r with
  | Ok f => Some f
  | Raise _ => None
  end.

Definition fit_table (n_values time_values : array) : dict (option fit) :=
  map (fun entry =>
         (fst entry,
          marker (fit_model (fst (snd entry)) (snd (snd entry))
                    n_values time_values)))
    MODELS.

Definition method_analysis (avg_df : list avg_row) (m : string) : analysis :=
  let rows := method_data avg_df m in
  let table := fit_table (n_values_of rows) (map avg_time_ms rows) in
  {| fit_results := table;
     best_model := fst (determine_best_model table);
     best_r2 := snd (determine_best_model table) |}.

End Script.

(** ** The specification's wording, as definitions *)

Module Spec.

(** Scorer: [SS_res], [SS_tot] and [R² = 1 − SS_res/SS_tot], with [R² = 0]
    when [SS_tot = 0]. *)
Definition ss_res (observed predicted : list Q) : Q :=
  Qsum (map2 (fun o p => (o - p) ^ 2) observed predicted).

Definition ss_tot (observed : list Q) : Q :=
  Qsum (map (fun o => (o - Qmean observed) ^ 2) observed).

(** Exact equality of two scores. *)
Definition score_eqb (x y : num) : bool :=
  match x, y with
  | Fin a, Fin b => Qeq_bool a b
  | PInf, PInf => true
  | NInf, NInf => true
  | _, _ => false
  end.

(** Selector: the maximal [R²] among the fits that did not fail; on equal
    [R²] the model with fewer free parameters; if still tied the model that
    comes first in the catalog's declared order.  [catalog] lists the
    models in that order with their parameter counts, [results] maps a
    model name to its fit. *)
Definition prefer (challenger incumbent : num * nat) : bool :=
  gt (fst challenger) (fst incumbent)
  || (score_eqb (fst challenger) (fst incumbent)
      && Nat.ltb (snd challenger) (snd incumbent)).

Definition select (catalog : list (string * nat)) (results : dict (option fit))
  : option string :=
  option_map fst
    (fold_left
       (fun best entry =>
          let '(name, n_params) := entry in
          match dict_get name results with
          | Some (Some r) =>
              match best with
              | None => Some (name, (r_squared r, n_params))
              | Some (_, incumbent) =>
                  if prefer (r_squared r, n_params) incumbent
                  then Some (name, (r_squared r, n_params))
                  else best
              end
          | _ => best
          end)
       catalog None).


End Spec.

(** The catalog's model names with their parameter counts. *)
Definition catalog (ln : Q -> Q) : list (string * nat) :=
  map (fun e => (fst e, List.length (snd (snd e)))) (MODELS ln).

(** ** Instances of the library parameters, for closed examples *)

Module Sample.

(** A stand-in for the logarithm: its tangent at 1. *)
Definition ln (q : Q) : Q := q - 1.

(** A stand-in for the square root: the integer square root of the
    numerator, brought to the denominator. *)
Definition sqrt (q : Q) : Q :=
  Z.sqrt (Qnum q * Z.pos (Qden q)) # Qden q.

(** An optimiser that checks its input the way [curve_fit] does (at least
    as many points as parameters, residuals that can be formed) and then
    returns the initial guess. *)
Definition curve_fit (f : callable) (xdata ydata : array) (p0 : list Q)
  (maxfev : Z) : result (list Q) :=
  if negb (Nat.eqb (List.length ydata) 1)
     && Nat.ltb (List.length ydata) (List.length p0)
  then Raise TypeError
  else
    predicted <- f xdata p0 ;;
    residuals <- arr_sub predicted ydata ;;
    if Nat.ltb (List.length residuals) (List.length p0)
    then Raise TypeError
    else Ok p0.

(** An optimiser that never converges. *)
Definition curve_fit_diverges (f : callable) (xdata ydata : array)
  (p0 : list Q) (maxfev : Z) : result (list Q) :=
  Raise RuntimeError.

Definition format_4f (x : num) : string :=
  match x with
  | Fin _ => "<number>"
  | PInf => "inf"
  | NInf => "-inf"
  | NaN => "nan"
  end.

Definition format_params (p : dict Q) : string := "<parameters>".

Definition row (a : string) (p n : Z) (t : Q) : measurement :=
  {| m_method := a; m_percentage := p; m_num_instances := n; time_ms := t |}.

(** A fit with the given score; the other fields do not matter to the
    selector. *)
Definition fit_with (r2 : num) : fit :=
  {| params := [];
     r_squared := r2;
     rmse := Fin 0;
     predictions := [];
     model_func := fun _ _ => Ok [];
     popt := [] |}.

(** Quadratic and linearithmic tie at 1/2, the other two fits failed. *)
Definition tied_results : dict (option fit) :=
  [ ("O(n)", None);
    ("O(n²)", Some (fit_with (Fin (1 # 2))));
    ("O(n log n)", Some (fit_with (Fin (1 # 2))));
    ("O(log n)", None) ].


(** Three identical measurements of one group. *)
Definition three_identical : list measurement :=
  [ row "kmeans" 10 100 5; row "kmeans" 10 100 5; row "kmeans" 10 100 5 ].

(** The measurements of the specification's end-to-end scenario. *)
Definition scenario : list measurement :=
  [ row "A" 10 100 10; row "A" 10 100 12;
    row "A" 20 200 20; row "A" 20 200 22;
    row "A" 40 400 41; row "A" 40 400 39 ].

End Sample.

(** ** The rest of [plot_complexity.py]: file choice, tables, summary *)

(** [max(items, key=key)] on a sequence that is not empty: the first item
    whose key is maximal. *)
Definition py_max_by {A : Type} (key : A -> Q) (first : A) (rest : list A)
  : A :=
  fold_left (fun best x => if Qltb (key best) (key x) then x else best)
    rest first.

(** [find_results_file]: [files] is the list [glob.glob] returns for
    [complexity_benchmark_*.csv], [getmtime] the modification time of a
    path. *)
Definition find_results_file (files : list string) (getmtime : string -> Q)
  : option string :=
  match files with
  | [] => None
  | f :: rest => Some (py_max_by getmtime f rest)
  end.

(** [avg_df[(avg_df['method'] == m) & (avg_df['num_instances'] == size)]]. *)
Definition rows_at (avg_df : list avg_row) (m : string) (size : Z)
  : list avg_row :=
  filter (fun r => String.eqb (method r) m && Z.eqb (num_instances r) size)
    avg_df.

(** The time shown for a method at a size: [row['avg_time_ms'].values[0]]
    when the selection is not empty, nothing ([N/A]) otherwise. *)
Definition table_cell (avg_df : list avg_row) (m : string) (size : Z)
  : option num :=
  match rows_at avg_df m size with
  | [] => None
  | r :: _ => Some (avg_time_ms r)
  end.

(** [sorted(avg_df['num_instances'].unique())], line 315, and
    [sorted(df['num_instances'].unique())], line 437. *)
Definition report_sizes (avg_df : list avg_row) : list Z :=
  sort_by Z.leb (unique Z.eqb (map num_instances avg_df)).

Definition console_sizes (df : list measurement) : list Z :=
  sort_by Z.leb (unique Z.eqb (map m_num_instances df)).

Section Console.

(** [f"{size:<15,}"] and [f"{time_ms:<20,.0f}"] of the report,
    [f"{size:<12,}"] and [f"{time_ms:<16,.0f}"] of the console table,
    [f"{s:Ns}"] for a string and [f"{x:.3f}"]. *)
Variable format_size_15 : Z -> string.
Variable format_time_20 : num -> string.
Variable format_size_12 : Z -> string.
Variable format_time_16 : num -> string.
Variable format_s : nat -> string -> string.
Variable format_3f : num -> string.

(** Lines 325-334 of [generate_summary_report]: the data rows of the table
    of sizes against times, one string per row. *)
Definition report_data_rows (avg_df : list avg_row) : list string :=
  let methods := unique String.eqb (map method avg_df) in
  map (fun size =>
         format_size_15 size
         ++ String.concat ""
              (map (fun m =>
                      match table_cell avg_df m size with
                      | Some time_ms => format_time_20 time_ms
                      | None => "N/A                 "
                      end)
                 methods))
    (report_sizes avg_df).

(** Lines 477-486 of [main]: the same table on the console, over the
    sizes of [df]. *)
Definition console_data_rows (df : list measurement) (avg_df : list avg_row)
  : list string :=
  let methods := unique String.eqb (map method avg_df) in
  map (fun size =>
         format_size_12 size
         ++ String.concat ""
              (map (fun m =>
                      match table_cell avg_df m size with
                      | Some time_ms => format_time_16 time_ms
                      | None => "N/A             "
                      end)
                 methods))
    (console_sizes df).

(** Lines 494-496 of [main]: one line of the complexity summary.  The
    format [:12s] applied to [None] raises [TypeError]. *)
Definition summary_line (m : string) (a : analysis) : result string :=
  match best_model a with
  | Some complexity =>
      Ok ("  " ++ format_s 25 m ++ " -> " ++ format_s 12 complexity
          ++ " (R² = " ++ format_3f (best_r2 a) ++ ")")
  | None => Raise TypeError
  end.

(** Lines 493-496 of [main]: the lines printed, and the exception that
    ended the loop, if any. *)
Fixpoint print_summary (analysis_results : dict analysis)
  : list string * option exn :=
  match analysis_results with
  | [] => ([], None)
  | (m, a) :: rest =>
      match summary_line m a with
      | Ok line =>
          let '(printed, e) := print_summary rest in (line :: printed, e)
      | Raise e => ([], Some e)
      end
  end.

End Console.

(** Formatters for closed examples: no padding, no digits. *)
Module SampleFormat.

Definition format_s (width : nat) (s : string) : string := s.

Definition format_3f (x : num) : string := Sample.format_4f x.

End SampleFormat.

(** [main] from line 433 to its last line, 496: the report written to
    [complexity_report.txt], the lines of the complexity summary printed on
    the console, and the exception that ended the run, if any. *)
Definition main_with_summary (ln sqrt : Q -> Q)
  (curve_fit : callable -> array -> array -> list Q -> Z -> result (list Q))
  (format_4f : num -> string) (format_params : dict Q -> string)
  (format_s : nat -> string -> string) (format_3f : num -> string)
  (df : list measurement) : list string * list string * option exn :=
  match main ln sqrt curve_fit format_4f format_params df with
  | Ok (analysis_results, report) =>
      let '(printed, e) := print_summary format_s format_3f analysis_results in
      (report, printed, e)
  | Raise e => ([], [], Some e)
  end.

(** ** Machine arithmetic: lines 34-48 and 104-108 in int64 and binary64 *)

Module F64.

Import PrimFloat.
Local Open Scope float_scope.

(** The result of an int64 operation: the mathematical result modulo
    2^64, read as a signed number. *)
Definition int64_wrap (z : Z) : Z := ((z + 2 ^ 63) mod 2 ^ 64 - 2 ^ 63)%Z.

(** The conversion of an int64 to float64, rounded to nearest. *)
Definition of_int64 (z : Z) : float :=
  if (z =? - 2 ^ 63)%Z then - 0x1p63
  else if (z <? 0)%Z then - of_uint63 (Uint63.of_Z (- z))
  else of_uint63 (Uint63.of_Z z).

(** The doubles nearest to 0.1 and 0.2. *)
Definition tenth : float := 0x1.999999999999ap-4.
Definition fifth : float := 0x1.999999999999ap-3.

(** [res += a[i]] over the rest of a block. *)
Fixpoint add_all (res : float) (a : list float) : float :=
  match a with
  | [] => res
  | x :: a' => add_all (res + x) a'
  end.

(** The unrolled loop of numpy's pairwise summation: eight running sums
    [r], each taking one element of every full block of eight. *)
Fixpoint unrolled (fuel : nat) (r a : list float) : list float * list float :=
  match fuel with
  | O => (r, a)
  | S fuel' =>
      if (8 <=? List.length a)%nat
      then unrolled fuel' (map2 add r (firstn 8 a)) (skipn 8 a)
      else (r, a)
  end.

Definition sum_block (a : list float) : float :=
  let '(r, rest) := unrolled (List.length a) (firstn 8 a) (skipn 8 a) in
  match r with
  | [r0; r1; r2; r3; r4; r5; r6; r7] =>
      add_all (((r0 + r1) + (r2 + r3)) + ((r4 + r5) + (r6 + r7))) rest
  | _ => nan
  end.

(** numpy's pairwise summation of a contiguous float64 array: fewer than
    8 elements are added from left to right, up to 128 go through the
    unrolled loop, a longer array is split in two at a multiple of 8.
    The fuel is the length of the array: every split shortens it. *)
Fixpoint pairwise_sum (fuel : nat) (a : list float) : float :=
  let n := List.length a in
  if (n <? 8)%nat then add_all 0 a
  else if (n <=? 128)%nat then sum_block a
  else
    match fuel with
    | O => nan
    | S fuel' =>
        let n2 := (n / 2 - (n / 2) mod 8)%nat in
        pairwise_sum fuel' (firstn n2 a) + pairwise_sum fuel' (skipn n2 a)
    end.

(** [np.sum]: the reduction starts from the identity 0. *)
Definition np_sum (a : list float) : float :=
  0 + pairwise_sum (List.length a) a.

(** [np.mean]: the sum divided by the number of elements. *)
Definition np_mean (a : list float) : float :=
  np_sum a / of_int64 (Z.of_nat (List.length a)).

(** Broadcasting of two one-dimensional arrays, as in [Np.broadcast]. *)
Definition broadcast (f : float -> float -> float) (xs ys : list float)
  : result (list float) :=
  if Nat.eqb (List.length xs) (List.length ys) then Ok (map2 f xs ys)
  else match xs, ys with
       | [x], _ => Ok (map (f x) ys)
       | _, [y] => Ok (map (fun x => f x y) xs)
       | _, _ => Raise ValueError
       end.

(** [a ** 2] on a float64 array. *)
Definition arr_sq (a : list float) : list float := map (fun x => x * x) a.

(** Line 106. *)
Definition ss_res (time_values predictions : list float) : result float :=
  d <- broadcast sub time_values predictions ;;
  Ok (np_sum (arr_sq d)).

(** Line 107. *)
Definition ss_tot (time_values : list float) : float :=
  np_sum (arr_sq (map (fun x => x - np_mean time_values) time_values)).

(** Lines 106-108 in binary64. *)
Definition score_r_squared (time_values predictions : list float)
  : result float :=
  res <- ss_res time_values predictions ;;
  let tot := ss_tot time_values in
  Ok (if 0 <? tot then 1 - res / tot else 0).

Section Models.

(** The C library's [log] on doubles. *)
Variable log : float -> float.

(** Lines 34-48 on one element [n] of the int64 array [n_values] of line
    105, with float64 parameters: [n ** 2] and [n + 1] are computed in
    int64 and converted to float64 afterwards. *)
Definition linear (n : Z) (a b : float) : float := a * of_int64 n + b.

Definition quadratic (n : Z) (a b c : float) : float :=
  a * of_int64 (int64_wrap (n ^ 2)) + b * of_int64 n + c.

Definition nlogn (n : Z) (a b : float) : float :=
  a * of_int64 n * log (of_int64 (int64_wrap (n + 1))) + b.

Definition logarithmic (n : Z) (a b : float) : float :=
  a * log (of_int64 (int64_wrap (n + 1))) + b.

(** [quadratic] on one element of a float64 array, as [curve_fit] calls it
    (it converts [xdata] to float64) and as line 174 does on [n_smooth]. *)
Definition quadratic_on_float (x a b c : float) : float :=
  a * (x * x) + b * x + c.

End Models.

End F64.

(** * Properties *)

(** ** Order facts on floats *)

Lemma Qltb_lt (x y : Q) : Qltb x y = true <-> x < y.
Proof.
  unfold Qltb. rewrite negb_true_iff.
  split; intro H.
  - apply Qnot_le_lt. intro Hle. apply Qle_bool_iff in Hle. congruence.
  - destruct (Qle_bool y x) eqn:E; [|reflexivity].
    apply Qle_bool_iff in E. exfalso. apply (Qlt_not_le _ _ H E).
Qed.

Lemma Qltb_ge (x y : Q) : Qltb x y = false <-> y <= x.
Proof.
  unfold Qltb. rewrite negb_false_iff. apply Qle_bool_iff.
Qed.

Ltac num_order :=
  repeat match goal with
         | x : num |- _ => destruct x
         end;
  simpl in *; try discriminate; try reflexivity; try tauto;
  repeat match goal with
         | H : Qltb _ _ = true |- _ => apply Qltb_lt in H
         | H : Qltb _ _ = false |- _ => apply Qltb_ge in H
         | H : ?x <> ?x |- _ => exfalso; apply H; reflexivity
         end;
  try (apply Qltb_lt; lra); try (apply Qltb_ge; lra);
  try (right; apply Qltb_lt; lra); try (left; reflexivity).

Lemma gt_not_nan_l (x y : num) : gt x y = true -> x <> NaN.
Proof. intros H E; subst x; discriminate. Qed.

Lemma gt_trans (a b c : num) :
  gt a b = true -> gt b c = true -> gt a c = true.
Proof. intros; num_order. Qed.

(** [a <= b <= c] gives [a <= c], as long as the middle value is a number. *)
Lemma not_gt_trans (a b c : num) :
  b <> NaN -> gt a b = false -> gt b c = false -> gt a c = false.
Proof. intros; num_order. Qed.

Lemma gt_above_not_gt (a b c : num) :
  gt c b = true -> gt a b = false -> a = NaN \/ gt c a = true.
Proof.
  intros H1 H2.
  destruct a; try (left; reflexivity); right; num_order.
Qed.

Lemma gt_fin_ninf (q : Q) : gt (Fin q) NInf = true.
Proof. reflexivity. Qed.

Lemma gt_irrefl (x : num) : gt x x = false.
Proof. destruct x; try reflexivity. apply Qltb_ge. lra. Qed.

(** ** The selector *)

Section Selector.

(** The loop invariant, from any running best that is a number: the final
    score is a number nobody exceeds, and either nothing was selected on the
    way, or the winner is an entry that strictly exceeds every earlier
    one. *)
Lemma select_loop (d : dict (option fit)) :
  forall bm br, br <> NaN ->
    exists bm' br',
      fold_left select_step d (bm, br) = (bm', br') /\
      br' <> NaN /\
      gt br br' = false /\
      (forall k e, In (k, Some e) d -> gt (r_squared e) br' = false) /\
      ((bm' = bm /\ br' = br) \/
       exists pre m res post,
         d = (pre ++ (m, Some res) :: post)%list /\
         bm' = Some m /\ br' = r_squared res /\
         gt br' br = true /\
         forall k e, In (k, Some e) pre ->
                     r_squared e = NaN \/ gt br' (r_squared e) = true).
Proof.
  induction d as [|[k [e|]] d IH]; intros bm br Hbr.
  - exists bm, br. split; [reflexivity|]. split; [exact Hbr|].
    split; [apply gt_irrefl|]. split; [intros ? ? []|].
    left; split; reflexivity.
  - simpl. destruct (gt (r_squared e) br) eqn:G.
    + destruct (IH (Some k) (r_squared e) (gt_not_nan_l _ _ G))
        as (bm' & br' & Hf & Hn & Hge & Hall & Hcase).
      exists bm', br'. split; [exact Hf|]. split; [exact Hn|].
      assert (Hbr' : gt br br' = false).
      { destruct (gt br br') eqn:G'; [|reflexivity].
        rewrite (gt_trans _ _ _ G G') in Hge. discriminate. }
      split; [exact Hbr'|]. split.
      * intros k0 e0 [H|H]; [inversion H; subst; exact Hge | eauto].
      * right. destruct Hcase as [[-> ->] | (pre & m & res & post & -> & -> & -> & Hgt & Hpre)].
        -- exists [], k, e, d. repeat split; auto; intros ? ? [].
        -- exists ((k, Some e) :: pre), m, res, post. repeat split; auto.
           ++ exact (gt_trans _ _ _ Hgt G).
           ++ intros k0 e0 [H|H]; [inversion H; subst; right; exact Hgt | eauto].
    + destruct (IH bm br Hbr) as (bm' & br' & Hf & Hn & Hge & Hall & Hcase).
      exists bm', br'. split; [exact Hf|]. split; [exact Hn|].
      split; [exact Hge|]. split.
      * intros k0 e0 [H|H]; [|eauto].
        inversion H; subst. exact (not_gt_trans _ br _ Hbr G Hge).
      * destruct Hcase as [[-> ->] | (pre & m & res & post & -> & -> & -> & Hgt & Hpre)].
        -- left; auto.
        -- right. exists ((k, Some e) :: pre), m, res, post. repeat split; auto.
           intros k0 e0 [H|H]; [|eauto].
           inversion H; subst. exact (gt_above_not_gt _ br _ Hgt G).
  - simpl. destruct (IH bm br Hbr) as (bm' & br' & Hf & Hn & Hge & Hall & Hcase).
    exists bm', br'. repeat split; auto.
    + intros k0 e0 [H|H]; [discriminate | eauto].
    + destruct Hcase as [[-> ->] | (pre & m & res & post & -> & -> & -> & Hgt & Hpre)].
      * left; auto.
      * right. exists ((k, None) :: pre), m, res, post. repeat split; auto.
        intros k0 e0 [H|H]; [discriminate | eauto].
Qed.

(** What [determine_best_model] returns, in both cases. *)
Lemma determine_best_model_cases (d : dict (option fit)) :
  (determine_best_model d = (None, NInf) /\
   forall k e, In (k, Some e) d -> gt (r_squared e) NInf = false)
  \/
  (exists pre m res post,
      d = (pre ++ (m, Some res) :: post)%list /\
      determine_best_model d = (Some m, r_squared res) /\
      gt (r_squared res) NInf = true /\
      (forall k e, In (k, Some e) d ->
                   gt (r_squared e) (r_squared res) = false) /\
      (forall k e, In (k, Some e) pre ->
                   r_squared e = NaN \/
                   gt (r_squared res) (r_squared e) = true)).
Proof.
  unfold determine_best_model.
  destruct (select_loop d None NInf) as (bm' & br' & Hf & Hn & Hge & Hall & Hcase);
    [discriminate|].
  rewrite Hf.
  destruct Hcase as [[-> ->] | (pre & m & res & post & Hd & -> & -> & Hgt & Hpre)].
  - left. split; auto.
  - right. exists pre, m, res, post. repeat split; auto.
Qed.

End Selector.

(** ** Dictionaries and loops *)

Lemma dict_set_fresh {V : Type} (k : string) (v : V) (d : dict V) :
  ~ In k (keys d) -> dict_set k v d = (d ++ [(k, v)])%list.
Proof.
  induction d as [|[k' v'] d IH]; simpl; intro H; [reflexivity|].
  destruct (String.eqb k k') eqn:E.
  - apply String.eqb_eq in E. exfalso. apply H. left. symmetry. exact E.
  - rewrite IH; [reflexivity|]. intro Hin. apply H. right. exact Hin.
Qed.

(** A loop that stores one value per key, over distinct keys, fills the
    dictionary in the order of the loop. *)
Lemma for_each_dict_set {V : Type} (g : string -> V) (l : list string) :
  NoDup l ->
  forall acc : dict V,
    (forall k, In k l -> ~ In k (keys acc)) ->
    for_each l (fun d k => Ok (dict_set k (g k) d)) acc
    = Ok (acc ++ map (fun k => (k, g k)) l)%list.
Proof.
  induction 1 as [|k l Hk Hl IH]; intros acc Hacc; simpl.
  - rewrite app_nil_r. reflexivity.
  - rewrite dict_set_fresh by (apply Hacc; left; reflexivity).
    rewrite IH.
    + rewrite <- app_assoc. reflexivity.
    + intros k' Hk' Hin. unfold keys in Hin. rewrite map_app in Hin.
      apply in_app_or in Hin. destruct Hin as [Hin|Hin].
      * apply (Hacc k'); [right; exact Hk' | exact Hin].
      * simpl in Hin. destruct Hin as [->|[]]. exact (Hk Hk').
Qed.

Lemma for_each_ext {A S : Type} (l : list A) (f g : S -> A -> result S) :
  (forall s x, In x l -> f s x = g s x) ->
  forall s, for_each l f s = for_each l g s.
Proof.
  induction l as [|x l IH]; intros H s; simpl; [reflexivity|].
  rewrite (H s x) by (left; reflexivity).
  destruct (g s x); simpl; [|reflexivity].
  apply IH. intros s' y Hy. apply H. right. exact Hy.
Qed.

(** ** Tables: [unique] and [sort_by] *)

Section Tables.

Context {A : Type}.

Lemma in_unique (eqb : A -> A -> bool) (l : list A) :
  (forall x y, eqb x y = true <-> x = y) ->
  forall x, In x (unique eqb l) <-> In x l.
Proof.
  intros Heq. induction l as [|a l IH]; intro x; simpl; [tauto|].
  rewrite filter_In, IH, negb_true_iff.
  split.
  - intros [H|[H _]]; auto.
  - intros [H|H]; [left; exact H|].
    destruct (eqb a x) eqn:E.
    + left. apply Heq. exact E.
    + right. split; [exact H | reflexivity].
Qed.

Lemma NoDup_unique (eqb : A -> A -> bool) (l : list A) :
  (forall x y, eqb x y = true <-> x = y) ->
  NoDup (unique eqb l).
Proof.
  intros Heq. induction l as [|a l IH]; simpl; constructor.
  - rewrite filter_In. intros [_ H].
    rewrite negb_true_iff in H.
    assert (E : eqb a a = true) by (apply Heq; reflexivity).
    congruence.
  - apply NoDup_filter. exact IH.
Qed.

Lemma insert_sorted_perm (leb : A -> A -> bool) (x : A) (l : list A) :
  Permutation (x :: l) (insert_sorted leb x l).
Proof.
  induction l as [|y l IH]; simpl; [reflexivity|].
  destruct (leb x y); [reflexivity|].
  rewrite perm_swap. constructor. exact IH.
Qed.

Lemma sort_by_perm (leb : A -> A -> bool) (l : list A) :
  Permutation l (sort_by leb l).
Proof.
  induction l as [|x l IH]; simpl; [constructor|].
  rewrite <- insert_sorted_perm. constructor. exact IH.
Qed.

Lemma insert_sorted_sorted (leb : A -> A -> bool) (x : A) (l : list A) :
  (forall a b, leb a b = false -> leb b a = true) ->
  Sorted (fun a b => leb a b = true) l ->
  Sorted (fun a b => leb a b = true) (insert_sorted leb x l).
Proof.
  intros Htot. induction 1 as [|y l Hs IH Hhd]; simpl.
  - repeat constructor.
  - destruct (leb x y) eqn:E.
    + constructor; [constructor; assumption | constructor; exact E].
    + constructor; [exact IH|].
      destruct l as [|z l]; simpl.
      * constructor. apply Htot. exact E.
      * destruct (leb x z); constructor.
        -- apply Htot. exact E.
        -- inversion Hhd; assumption.
Qed.

Lemma sort_by_sorted (leb : A -> A -> bool) (l : list A) :
  (forall a b, leb a b = false -> leb b a = true) ->
  Sorted (fun a b => leb a b = true) (sort_by leb l).
Proof.
  intros Htot. induction l as [|x l IH]; simpl; [constructor|].
  apply insert_sorted_sorted; assumption.
Qed.

End Tables.

(** ** The fitting loop *)

Section Fitter.

Variable ln : Q -> Q.
Variable sqrt : Q -> Q.
Variable curve_fit : callable -> array -> array -> list Q -> Z -> result (list Q).

(** The loop over the catalog never raises: it returns one entry per
    model, in catalog order, each decided by its own fit alone. *)
Lemma fit_complexity_models_table (n_values time_values : array) :
  fit_complexity_models ln sqrt curve_fit n_values time_values
  = Ok (fit_table ln sqrt curve_fit n_values time_values).
Proof.
  unfold fit_complexity_models, fit_table, MODELS.
  cbn -[fit_model].
  repeat match goal with
         | |- context [fit_model ?s ?c ?f ?p ?n ?t] =>
             destruct (fit_model s c f p n t); cbn -[fit_model]
         end;
  reflexivity.
Qed.

Lemma method_eqb_spec (x y : string) : String.eqb x y = true <-> x = y.
Proof. apply String.eqb_eq. Qed.

(** The loop over the methods never raises either: one analysis per
    method, in order of first appearance. *)
Lemma plot_individual_methods_table (avg_df : list avg_row) :
  plot_individual_methods ln sqrt curve_fit avg_df
  = Ok (map (fun m => (m, method_analysis ln sqrt curve_fit avg_df m))
          (unique String.eqb (map method avg_df))).
Proof.
  unfold plot_individual_methods.
  rewrite (for_each_ext _ _
             (fun d m =>
                Ok (dict_set m (method_analysis ln sqrt curve_fit avg_df m) d))).
  - rewrite for_each_dict_set.
    + reflexivity.
    + apply NoDup_unique, method_eqb_spec.
    + intros k _ [].
  - intros s m _. rewrite fit_complexity_models_table.
    unfold method_analysis. cbn [bind].
    destruct (determine_best_model _); reflexivity.
Qed.

End Fitter.

(** ** Selection: claim C1 *)

(** C1, as stated, fails: with the quadratic and the linearithmic fit tied
    at R² = 1/2 and the other two fits failed, the specification's rule
    (fewer parameters wins a tie) selects O(n log n), with two parameters,
    while [determine_best_model] returns O(n²), with three. *)
Lemma determine_best_model_ignores_parameter_count :
  fst (determine_best_model Sample.tied_results) = Some "O(n²)" /\
  Spec.select (catalog Sample.ln) Sample.tied_results = Some "O(n log n)" /\
  fst (determine_best_model Sample.tied_results)
  <> Spec.select (catalog Sample.ln) Sample.tied_results.
Proof.
  split; [reflexivity|]. split; [reflexivity|].
  vm_compute. discriminate.
Qed.

(** C1, amended: [determine_best_model] returns the first entry, in the
    order of the dictionary, among those whose R² is maximal: the winner's
    R² is above -inf, no fit has a greater R², and every fit before the
    winner has a strictly smaller R² (or a [nan] one).  The parameter count
    plays no part.  When no fit has an R² above -inf the answer is
    [(None, -inf)].  The dictionary [fit_complexity_models] returns lists
    the models in the catalog's declared order. *)
Theorem determine_best_model_first_maximal
  (ln sqrt : Q -> Q)
  (curve_fit : callable -> array -> array -> list Q -> Z -> result (list Q)) :
  (forall d : dict (option fit),
      match determine_best_model d with
      | (Some m, r) =>
          exists pre res post,
            d = (pre ++ (m, Some res) :: post)%list /\
            r = r_squared res /\
            gt r NInf = true /\
            (forall k e, In (k, Some e) d -> gt (r_squared e) r = false) /\
            (forall k e, In (k, Some e) pre ->
                         r_squared e = NaN \/ gt r (r_squared e) = true)
      | (None, r) =>
          r = NInf /\
          forall k e, In (k, Some e) d -> gt (r_squared e) NInf = false
      end) /\
  (forall n_values time_values,
      exists d,
        fit_complexity_models ln sqrt curve_fit n_values time_values = Ok d /\
        keys d = keys (MODELS ln)).
Proof.
  split.
  - intro d.
    destruct (determine_best_model_cases d)
      as [[-> Hall] | (pre & m & res & post & Hd & -> & Hgt & Hall & Hpre)].
    + split; [reflexivity | exact Hall].
    + exists pre, res, post. repeat split; assumption.
  - intros n t. rewrite fit_complexity_models_table.
    eexists. split; reflexivity.
Qed.

Lemma all_failed_no_selection (d : dict (option fit)) :
  (forall k v, In (k, v) d -> v = None) ->
  determine_best_model d = (None, NInf).
Proof.
  intro Hnone.
  destruct (determine_best_model_cases d)
    as [[H _] | (pre & m & res & post & Hd & _)]; [exact H|].
  exfalso.
  assert (Hin : In (m, Some res) d).
  { rewrite Hd. apply in_or_app. right. left. reflexivity. }
  apply Hnone in Hin. discriminate.
Qed.

(** The report holds, for every method of the analysis, the lines written
    for that method, in one piece. *)
Lemma report_method_in_report (format_4f : num -> string)
  (format_params : dict Q -> string) (d : dict analysis) (m : string)
  (a : analysis) :
  In (m, a) d ->
  exists before after,
    generate_summary_report format_4f format_params d
    = (before ++ report_method format_4f format_params m a ++ after)%list.
Proof.
  intro Hin. apply in_split in Hin. destruct Hin as (l1 & l2 & ->).
  unfold generate_summary_report. rewrite flat_map_app. cbn [flat_map fst snd].
  eexists. eexists. reflexivity.
Qed.

(** An instance: with an optimiser that never converges, every fit of the
    scenario fails and the report says so. *)
Example all_fits_fail_report :
  main Sample.ln Sample.sqrt Sample.curve_fit_diverges
    Sample.format_4f Sample.format_params Sample.scenario
  = Ok ([ ("A",
           {| fit_results :=
                [ ("O(n)", None); ("O(n²)", None);
                  ("O(n log n)", None); ("O(log n)", None) ];
              best_model := None;
              best_r2 := NInf |}) ],
        [ "Method: A"; "  Best fit model: None"; "  R² score: -inf"; "" ]).
Proof. vm_compute. reflexivity. Qed.

(** ** Arithmetic on arrays of finite floats *)

Lemma np_sum_fin (qs : list Q) : np_sum (map Fin qs) = Fin (Qsum qs).
Proof.
  induction qs as [|q qs IH]; [reflexivity|].
  unfold np_sum in *. simpl. rewrite IH. reflexivity.
Qed.

Lemma arr_sq_fin (qs : list Q) :
  arr_sq (map Fin qs) = map Fin (map (fun q => q * q) qs).
Proof. unfold arr_sq. rewrite !map_map. reflexivity. Qed.

Lemma arr_sub_scalar_fin (ts : list Q) (m : Q) :
  arr_sub_scalar (map Fin ts) (Fin m) = map Fin (map (fun t => t + - m) ts).
Proof. unfold arr_sub_scalar. rewrite !map_map. reflexivity. Qed.

Lemma Qlen_pos (q : Q) (qs : list Q) : 0 < Qlen (q :: qs).
Proof.
  unfold Qlen. change 0 with (inject_Z 0). rewrite <- Zlt_Qlt.
  simpl List.length. lia.
Qed.

Lemma np_mean_fin (q : Q) (qs : list Q) :
  np_mean (map Fin (q :: qs)) = Fin (Qmean (q :: qs)).
Proof.
  unfold np_mean. cbn [map]. rewrite <- (map_cons Fin), np_sum_fin.
  unfold of_nat. rewrite length_map. cbn [div].
  pose proof (Qlen_pos q qs) as Hpos. unfold Qlen in Hpos.
  destruct (Qeq_bool _ 0) eqn:E; [|reflexivity].
  apply Qeq_bool_iff in E. rewrite E in Hpos. exfalso. lra.
Qed.

(** The total sum of squares of a finite series is a finite float. *)
Lemma ss_tot_fin (ts : list Q) :
  np_sum (arr_sq (arr_sub_scalar (map Fin ts) (np_mean (map Fin ts))))
  = Fin (Qsum (map (fun q => q * q) (map (fun t => t + - Qmean ts) ts))).
Proof.
  destruct ts as [|t ts]; [reflexivity|].
  rewrite np_mean_fin, arr_sub_scalar_fin, arr_sq_fin, np_sum_fin.
  reflexivity.
Qed.

Lemma map2_fin (f : Q -> Q -> Q) (g : num -> num -> num) (xs ys : list Q) :
  (forall x y, g (Fin x) (Fin y) = Fin (f x y)) ->
  map2 g (map Fin xs) (map Fin ys) = map Fin (map2 f xs ys).
Proof.
  intro H. revert ys. induction xs as [|x xs IH]; intros [|y ys]; simpl;
    try reflexivity.
  rewrite H, IH. reflexivity.
Qed.

Lemma arr_sub_same_length (xs ys : list Q) :
  List.length xs = List.length ys ->
  arr_sub (map Fin xs) (map Fin ys)
  = Ok (map Fin (map2 (fun x y => x + - y) xs ys)).
Proof.
  intro H. unfold arr_sub, broadcast. rewrite !length_map, H, Nat.eqb_refl.
  rewrite (map2_fin (fun x y => x + - y)); reflexivity.
Qed.

(** Subtracting finite arrays, when it succeeds, gives a finite array. *)
Lemma arr_sub_fin (xs ys : list Q) (p : array) :
  arr_sub (map Fin xs) (map Fin ys) = Ok p -> exists ds, p = map Fin ds.
Proof.
  unfold arr_sub, broadcast. rewrite !length_map.
  destruct (Nat.eqb (List.length xs) (List.length ys)) eqn:E.
  - intro H. inversion H; subst.
    exists (map2 (fun x y => x + - y) xs ys).
    apply (map2_fin (fun x y => x + - y)). reflexivity.
  - destruct xs as [|x [|x' xs]]; destruct ys as [|y [|y' ys]];
      simpl in E; try discriminate; simpl;
      intro H; inversion H; subst; clear H.
    + exists []. reflexivity.
    + exists []. reflexivity.
    + exists (map (fun y0 => x + - y0) (y :: y' :: ys)).
      cbn [map]. rewrite !map_map. reflexivity.
    + exists (map (fun x0 => x0 + - y) (x :: x' :: xs)).
      cbn [map]. rewrite !map_map. reflexivity.
Qed.

(** Arrays of shapes that do not broadcast cannot be subtracted. *)
Lemma arr_sub_mismatch (xs ys : array) :
  List.length xs <> List.length ys ->
  List.length xs <> 1%nat ->
  List.length ys <> 1%nat ->
  arr_sub xs ys = Raise ValueError.
Proof.
  intros Hne Hx Hy. unfold arr_sub, broadcast.
  apply Nat.eqb_neq in Hne. rewrite Hne.
  destruct xs as [|x [|x' xs]]; destruct ys as [|y [|y' ys]];
    simpl in *; try reflexivity; congruence.
Qed.

Lemma Qsum_squares_nonneg (l : list Q) : 0 <= Qsum (map (fun q => q * q) l).
Proof.
  induction l as [|q l IH]; simpl; [lra|].
  assert (Hq : 0 <= q * q) by nra. lra.
Qed.

(** The coefficient of determination of a finite series against finite
    predictions [ps], where [ds] are the residuals. *)
Lemma score_r_squared_fin (ts ps ds : list Q) :
  arr_sub (map Fin ts) (map Fin ps) = Ok (map Fin ds) ->
  score_r_squared (map Fin ts) (map Fin ps)
  = Ok (let sr := Qsum (map (fun q => q * q) ds) in
        let st :=
          Qsum (map (fun q => q * q) (map (fun t => t + - Qmean ts) ts)) in
        if Qltb 0 st then Fin (1 + - (sr / st)) else Fin 0).
Proof.
  intro H. unfold score_r_squared. rewrite H. cbn [bind].
  rewrite ss_tot_fin, arr_sq_fin, np_sum_fin. cbn [gt].
  cbv zeta.
  destruct (Qltb 0 _) eqn:E; [|reflexivity].
  cbn [div sub neg add].
  destruct (Qeq_bool _ 0) eqn:E0; [|reflexivity].
  apply Qeq_bool_iff in E0. apply Qltb_lt in E. rewrite E0 in E.
  exfalso. lra.
Qed.

Lemma Qsum_cons (x : Q) (l : list Q) : Qsum (x :: l) = x + Qsum l.
Proof. reflexivity. Qed.

Lemma ss_res_spec (observed predicted : list Q) :
  Qsum (map (fun q => q * q) (map2 (fun x y => x + - y) observed predicted))
  == Spec.ss_res observed predicted.
Proof.
  unfold Spec.ss_res. revert predicted.
  induction observed as [|o observed IH]; intros [|p predicted];
    cbn [map2 map]; try reflexivity.
  rewrite !Qsum_cons, IH. ring.
Qed.

Lemma ss_tot_spec (observed : list Q) :
  Qsum (map (fun q => q * q) (map (fun t => t + - Qmean observed) observed))
  == Spec.ss_tot observed.
Proof.
  unfold Spec.ss_tot. generalize (Qmean observed) as m. intro m.
  induction observed as [|o observed IH]; cbn [map]; [reflexivity|].
  rewrite !Qsum_cons, IH. ring.
Qed.

(** ** The scorer over exact numbers *)

(** A constant series whose mean is exact scores exactly 0, even against
    perfect predictions. *)
Example score_r_squared_constant_series :
  score_r_squared (map Fin [5; 5; 5]) (map Fin [5; 5; 5]) = Ok (Fin 0) /\
  score_r_squared (map Fin [5; 5; 5]) [NaN; PInf; Fin 1] = Ok (Fin 0).
Proof. split; reflexivity. Qed.

(** ** The catalog and the fitter: claims C6, C9, C10 *)

Section Catalog.

Variable ln : Q -> Q.

Lemma log_argument_positive (n : Q) : 0 <= n -> Qltb 0 (n + 1) = true.
Proof. intro H. apply Qltb_lt. lra. Qed.

Lemma in_MODELS (name : string) (f : callable) (pn : list string) :
  In (name, (f, pn)) (MODELS ln) ->
  (f = call2 linear \/ f = call3 quadratic \/
   f = call2 (nlogn ln) \/ f = call2 (logarithmic ln)).
Proof.
  unfold MODELS. simpl.
  intros [H|[H|[H|[H|[]]]]]; inversion H; subst; tauto.
Qed.

(** A model called on an array returns an array of the same length. *)
Lemma model_output_length (name : string) (f : callable) (pn : list string)
  (n : array) (popt : list Q) (p : array) :
  In (name, (f, pn)) (MODELS ln) ->
  f n popt = Ok p -> List.length p = List.length n.
Proof.
  intros Hin Hf. apply in_MODELS in Hin.
  destruct Hin as [-> | [-> | [-> | ->]]];
    unfold call2, call3 in Hf;
    destruct popt as [|a [|b [|c [|d popt]]]]; inversion Hf; subst;
    apply length_map.
Qed.

(** On sizes that are not negative every model returns finite values. *)
Lemma model_output_fin (name : string) (f : callable) (pn : list string)
  (ns : list Q) (popt : list Q) (p : array) :
  In (name, (f, pn)) (MODELS ln) ->
  Forall (fun n => 0 <= n) ns ->
  f (map Fin ns) popt = Ok p -> exists qs, p = map Fin qs.
Proof.
  intros Hin Hns Hf. apply in_MODELS in Hin.
  rewrite Forall_forall in Hns.
  destruct Hin as [-> | [-> | [-> | ->]]];
    unfold call2, call3 in Hf;
    destruct popt as [|a [|b [|c [|d popt]]]]; inversion Hf; subst; clear Hf.
  - exists (map (fun n => a * n + b) ns). rewrite !map_map. reflexivity.
  - exists (map (fun n => a * (n * n) + b * n + c) ns).
    rewrite !map_map. reflexivity.
  - exists (map (fun n => a * n * ln (n + 1) + b) ns).
    rewrite !map_map. apply map_ext_in. intros n Hn.
    unfold nlogn. cbn [add mul np_log].
    rewrite (log_argument_positive n (Hns n Hn)). reflexivity.
  - exists (map (fun n => a * ln (n + 1) + b) ns).
    rewrite !map_map. apply map_ext_in. intros n Hn.
    unfold logarithmic. cbn [add mul np_log].
    rewrite (log_argument_positive n (Hns n Hn)). reflexivity.
Qed.

End Catalog.

Section FitterClaims.

Variable ln : Q -> Q.
Variable sqrt : Q -> Q.
Variable curve_fit : callable -> array -> array -> list Q -> Z -> result (list Q).

Lemma in_fit_table (n t : array) (k : string) (v : option fit) :
  In (k, v) (fit_table ln sqrt curve_fit n t) ->
  exists f pn,
    In (k, (f, pn)) (MODELS ln) /\
    v = marker (fit_model sqrt curve_fit f pn n t).
Proof.
  unfold fit_table. intro H. apply in_map_iff in H.
  destruct H as ([name [f pn]] & E & Hin).
  inversion E; subst. exists f, pn. split; [exact Hin | reflexivity].
Qed.

(** C6: whatever the optimiser does (converge or raise) on each model, the
    loop over the catalog returns normally with exactly one entry per
    catalog model, in catalog order; the entry of a model is the
    failed-fit marker [None] exactly when its own fit raised, and is
    decided by that fit alone.  The loop over the methods returns normally
    as well, with one analysis per method. *)
Theorem fit_failures_are_isolated (n_values time_values : array)
  (avg_df : list avg_row) :
  (exists d,
      fit_complexity_models ln sqrt curve_fit n_values time_values = Ok d /\
      keys d = keys (MODELS ln) /\
      forall name f pn,
        In (name, (f, pn)) (MODELS ln) ->
        dict_get name d
        = Some (marker (fit_model sqrt curve_fit f pn n_values time_values)) /\
        (dict_get name d = Some None <->
         raises (fit_model sqrt curve_fit f pn n_values time_values))) /\
  (exists results,
      plot_individual_methods ln sqrt curve_fit avg_df = Ok results /\
      keys results = unique String.eqb (map method avg_df)).
Proof.
  split.
  - rewrite fit_complexity_models_table.
    eexists. split; [reflexivity|]. split; [reflexivity|].
    intros name f pn Hin.
    assert (Hget : dict_get name (fit_table ln sqrt curve_fit n_values time_values)
                   = Some (marker (fit_model sqrt curve_fit f pn n_values time_values))).
    { unfold MODELS in Hin. simpl in Hin.
      destruct Hin as [H|[H|[H|[H|[]]]]]; inversion H; subst; reflexivity. }
    split; [exact Hget|]. rewrite Hget.
    destruct (fit_model sqrt curve_fit f pn n_values time_values); simpl.
    + split; [discriminate | intros []].
    + split; [trivial | reflexivity].
  - rewrite plot_individual_methods_table.
    eexists. split; [reflexivity|].
    unfold keys. rewrite map_map. simpl. apply map_id.
Qed.

(** With shapes that do not broadcast, no model can be fitted. *)
Lemma fit_model_mismatch (name : string) (f : callable) (pn : list string)
  (n t : array) :
  In (name, (f, pn)) (MODELS ln) ->
  List.length n <> List.length t ->
  List.length n <> 1%nat ->
  List.length t <> 1%nat ->
  marker (fit_model sqrt curve_fit f pn n t) = None.
Proof.
  intros Hin Hne Hn Ht. unfold fit_model.
  destruct (curve_fit f n t _ _) as [popt|e]; [|reflexivity].
  cbn [bind]. destruct (f n popt) as [p|e] eqn:Hf; [|reflexivity].
  cbn [bind]. unfold score_r_squared.
  pose proof (model_output_length ln _ _ _ _ _ _ Hin Hf) as Hlen.
  rewrite arr_sub_mismatch; [reflexivity | | exact Ht | ]; congruence.
Qed.

(** C9, amended: when the observed and the predicted vector have different
    lengths, neither of them 1, the scoring expression raises numpy's
    [ValueError]; it does so inside the [try] block of its model, so the
    error is caught there and recorded as the failed-fit marker [None]:
    [fit_complexity_models] returns normally, with every model marked
    failed.  (Vectors one of which has length 1 are broadcast: nothing is
    raised.) *)
Theorem shape_mismatch_becomes_failed_fit (n_values time_values : array) :
  List.length n_values <> List.length time_values ->
  List.length n_values <> 1%nat ->
  List.length time_values <> 1%nat ->
  (forall name f pn popt predictions,
      In (name, (f, pn)) (MODELS ln) ->
      f n_values popt = Ok predictions ->
      score_r_squared time_values predictions = Raise ValueError) /\
  fit_complexity_models ln sqrt curve_fit n_values time_values
  = Ok [ ("O(n)", None); ("O(n²)", None);
         ("O(n log n)", None); ("O(log n)", None) ].
Proof.
  intros Hne Hn Ht. split.
  - intros name f pn popt p Hin Hf. unfold score_r_squared.
    pose proof (model_output_length ln _ _ _ _ _ _ Hin Hf) as Hlen.
    rewrite arr_sub_mismatch; [reflexivity | | exact Ht | ]; congruence.
  - rewrite fit_complexity_models_table. unfold fit_table.
    unfold MODELS. cbn [map fst snd].
    rewrite (fit_model_mismatch "O(n)"),
            (fit_model_mismatch "O(n²)"),
            (fit_model_mismatch "O(n log n)"),
            (fit_model_mismatch "O(log n)");
      try reflexivity; try assumption; unfold MODELS; simpl; tauto.
Qed.

(** A fit of finite times at sizes that are not negative has a finite
    R². *)
Lemma fit_model_fin (name : string) (f : callable) (pn : list string)
  (ns ts : list Q) (r : fit) :
  In (name, (f, pn)) (MODELS ln) ->
  Forall (fun n => 0 <= n) ns ->
  fit_model sqrt curve_fit f pn (map Fin ns) (map Fin ts) = Ok r ->
  exists q, r_squared r = Fin q.
Proof.
  intros Hin Hns. unfold fit_model.
  destruct (curve_fit f _ _ _ _) as [popt|e]; [|discriminate].
  cbn [bind]. destruct (f (map Fin ns) popt) as [p|e] eqn:Hf; [|discriminate].
  cbn [bind].
  destruct (model_output_fin ln _ _ _ _ _ _ Hin Hns Hf) as (qs & ->).
  destruct (arr_sub (map Fin ts) (map Fin qs)) as [d|e] eqn:Hsub.
  - destruct (arr_sub_fin _ _ _ Hsub) as (ds & ->).
    rewrite (score_r_squared_fin _ _ _ Hsub). cbn [bind].
    destruct (score_rmse _ _ _); [|discriminate].
    cbn [bind]. intro H. inversion H; subst; clear H. cbn [r_squared].
    cbv zeta. destruct (Qltb 0 _); eexists; reflexivity.
  - unfold score_r_squared. rewrite Hsub. discriminate.
Qed.

(** C10: for a series of finite times at sizes n ≥ 0, as soon as one
    catalog model is fitted the selector returns a model: there is no
    threshold on the score, the running best starts at -inf and any finite
    R² exceeds it; in particular a fit with a negative R² is selected when
    it is the only one. *)
Theorem some_fit_is_always_selected (ns ts : list Q) :
  Forall (fun n => 0 <= n) ns ->
  (exists d,
      fit_complexity_models ln sqrt curve_fit (map Fin ns) (map Fin ts) = Ok d /\
      ((exists k r, In (k, Some r) d) ->
       exists m res q,
         In (m, Some res) d /\
         r_squared res = Fin q /\
         determine_best_model d = (Some m, Fin q))) /\
  (forall name res q,
      r_squared res = Fin q -> q < 0 ->
      determine_best_model [(name, Some res)] = (Some name, Fin q)).
Proof.
  intro Hns. split.
  - rewrite fit_complexity_models_table. eexists. split; [reflexivity|].
    intros (k & r & Hin).
    destruct (in_fit_table _ _ _ _ Hin) as (f & pn & Hm & Hr).
    destruct (fit_model sqrt curve_fit f pn (map Fin ns) (map Fin ts))
      as [r'|e] eqn:Hfit; simpl in Hr; [|discriminate].
    inversion Hr; subst r'; clear Hr.
    destruct (fit_model_fin _ _ _ _ _ _ Hm Hns Hfit) as (q & Hq).
    destruct (determine_best_model_cases
                (fit_table ln sqrt curve_fit (map Fin ns) (map Fin ts)))
      as [[_ Hall] | (pre & m & res & post & Hd & Hsel & Hgt & Hall & _)].
    + specialize (Hall _ _ Hin). rewrite Hq in Hall. discriminate.
    + assert (Hin' : In (m, Some res)
                       (fit_table ln sqrt curve_fit (map Fin ns) (map Fin ts))).
      { rewrite Hd. apply in_or_app. right. left. reflexivity. }
      destruct (in_fit_table _ _ _ _ Hin') as (f' & pn' & Hm' & Hr').
      destruct (fit_model sqrt curve_fit f' pn' (map Fin ns) (map Fin ts))
        as [r'|e] eqn:Hfit'; simpl in Hr'; [|discriminate].
      inversion Hr'; subst r'; clear Hr'.
      destruct (fit_model_fin _ _ _ _ _ _ Hm' Hns Hfit') as (q' & Hq').
      exists m, res, q'. rewrite Hsel, Hq'. repeat split; auto.
  - intros name res q Hq _. unfold determine_best_model. simpl.
    rewrite Hq. reflexivity.
Qed.

End FitterClaims.

(** C9, as stated, fails: with three sizes and two times the scoring
    expression does raise (numpy's [ValueError]) on the model's three
    predictions, but nothing reaches the caller: [fit_complexity_models]
    returns, and every model carries the failed-fit marker. *)
Lemma shape_mismatch_does_not_propagate :
  List.length [Fin 1; Fin 2; Fin 3] <> List.length [Fin 10; Fin 20] /\
  call2 linear [Fin 1; Fin 2; Fin 3] [1; 1] = Ok [Fin 2; Fin 3; Fin 4] /\
  score_r_squared [Fin 10; Fin 20] [Fin 2; Fin 3; Fin 4] = Raise ValueError /\
  fit_complexity_models Sample.ln Sample.sqrt Sample.curve_fit
    [Fin 1; Fin 2; Fin 3] [Fin 10; Fin 20]
  = Ok [ ("O(n)", None); ("O(n²)", None);
         ("O(n log n)", None); ("O(log n)", None) ] /\
  ~ raises (fit_complexity_models Sample.ln Sample.sqrt Sample.curve_fit
              [Fin 1; Fin 2; Fin 3] [Fin 10; Fin 20]).
Proof.
  split; [simpl; lia|].
  split; [vm_compute; reflexivity|].
  split; [reflexivity|].
  split; [vm_compute; reflexivity|].
  vm_compute. tauto.
Qed.

(** C9, amended, at three sizes and two times. *)
Lemma shape_mismatch_becomes_failed_fit_witness :
  (forall name f pn popt predictions,
      In (name, (f, pn)) (MODELS Sample.ln) ->
      f [Fin 1; Fin 2; Fin 3] popt = Ok predictions ->
      score_r_squared [Fin 10; Fin 20] predictions = Raise ValueError) /\
  fit_complexity_models Sample.ln Sample.sqrt Sample.curve_fit
    [Fin 1; Fin 2; Fin 3] [Fin 10; Fin 20]
  = Ok [ ("O(n)", None); ("O(n²)", None);
         ("O(n log n)", None); ("O(log n)", None) ].
Proof.
  apply (shape_mismatch_becomes_failed_fit Sample.ln Sample.sqrt
           Sample.curve_fit [Fin 1; Fin 2; Fin 3] [Fin 10; Fin 20]);
    simpl; lia.
Defined.

(** C10 at the sizes 0, 1, 2 with the times 10, 0, 10. *)
Lemma some_fit_is_always_selected_witness :
  (exists d,
      fit_complexity_models Sample.ln Sample.sqrt Sample.curve_fit
        (map Fin [0; 1; 2]) (map Fin [10; 0; 10]) = Ok d /\
      ((exists k r, In (k, Some r) d) ->
       exists m res q,
         In (m, Some res) d /\
         r_squared res = Fin q /\
         determine_best_model d = (Some m, Fin q))) /\
  (forall name res q,
      r_squared res = Fin q -> q < 0 ->
      determine_best_model [(name, Some res)] = (Some name, Fin q)).
Proof.
  apply (some_fit_is_always_selected Sample.ln Sample.sqrt Sample.curve_fit
           [0; 1; 2] [10; 0; 10]).
  repeat constructor; unfold Qle; simpl; lia.
Defined.

(** There, every model fits worse than the mean of the times, and the
    least bad one is selected. *)
Example negative_r_squared_is_selected :
  match fit_complexity_models Sample.ln Sample.sqrt Sample.curve_fit
          (map Fin [0; 1; 2]) (map Fin [10; 0; 10]) with
  | Ok d => (map (fun e => (fst e, option_map r_squared (snd e))) d,
             determine_best_model d)
  | Raise _ => ([], (None, NaN))
  end
  = ([ ("O(n)", Some (Fin (-49086 # 48600)));
       ("O(n²)", Some (Fin (-23571 # 48600)));
       ("O(n log n)", Some (Fin (-31590 # 48600)));
       ("O(log n)", Some (Fin (-49086 # 48600))) ],
     (Some "O(n²)", Fin (-23571 # 48600))).
Proof. vm_compute. reflexivity. Qed.

(** ** The aggregator: claims C2, C3, C7 *)

Lemma key_eqb_spec (k1 k2 : group_key) : key_eqb k1 k2 = true <-> k1 = k2.
Proof.
  destruct k1 as [[a1 p1] n1], k2 as [[a2 p2] n2]. unfold key_eqb.
  rewrite !andb_true_iff, String.eqb_eq, !Z.eqb_eq.
  split; [intros [[-> ->] ->]; reflexivity | intro H; inversion H; auto].
Qed.




Section Aggregator.

Variable sqrt : Q -> Q.

Lemma row_key_aggregate (df : list measurement) (k : group_key) :
  row_key (aggregate sqrt df k) = k.
Proof. destruct k as [[a p] n]. reflexivity. Qed.


Lemma in_avg_df (df : list measurement) (r : avg_row) :
  In r (snd (load_data sqrt df)) ->
  r = aggregate sqrt df (row_key r) /\ In (row_key r) (group_keys df).
Proof.
  unfold load_data. cbn [snd]. intro H. apply in_map_iff in H.
  destruct H as (k & <- & Hk). rewrite row_key_aggregate. auto.
Qed.

Lemma in_group_keys (df : list measurement) (k : group_key) :
  In k (group_keys df) <-> In k (map key_of df).
Proof.
  unfold group_keys. split; intro H.
  - apply (in_unique key_eqb _ key_eqb_spec).
    eapply Permutation_in; [symmetry; apply sort_by_perm | exact H].
  - eapply Permutation_in; [apply sort_by_perm|].
    apply (in_unique key_eqb _ key_eqb_spec). exact H.
Qed.

Lemma NoDup_group_keys (df : list measurement) : NoDup (group_keys df).
Proof.
  unfold group_keys.
  eapply Permutation_NoDup; [apply sort_by_perm|].
  apply NoDup_unique, key_eqb_spec.
Qed.


Lemma group_times_nonempty (df : list measurement) (k : group_key) :
  In k (group_keys df) -> group_times df k <> [].
Proof.
  rewrite in_group_keys. intro H. apply in_map_iff in H.
  destruct H as (m & <- & Hm). unfold group_times.
  intro E. apply map_eq_nil in E.
  assert (Hin : In m (filter (fun m0 => key_eqb (key_of m0) (key_of m)) df)).
  { apply filter_In. split; [exact Hm | apply key_eqb_spec; reflexivity]. }
  rewrite E in Hin. destruct Hin.
Qed.

Lemma in_method_data (avg_df : list avg_row) (m : string) (r : avg_row) :
  In r (method_data avg_df m) <-> In r avg_df /\ method r = m.
Proof.
  unfold method_data. split; intro H.
  - assert (Hf : In r (filter (fun r0 => String.eqb (method r0) m) avg_df))
      by (eapply Permutation_in; [symmetry; apply sort_by_perm | exact H]).
    apply filter_In in Hf. rewrite String.eqb_eq in Hf. exact Hf.
  - eapply Permutation_in; [apply sort_by_perm|].
    apply filter_In. rewrite String.eqb_eq. exact H.
Qed.


End Aggregator.

Section AggregatorClaims.

Variable sqrt : Q -> Q.

(** Every aggregated row summarises at least one measurement. *)
Lemma avg_row_has_measurement (df : list measurement) (r : avg_row) :
  In r (snd (load_data sqrt df)) ->
  exists m, In m df /\ key_of m = row_key r.
Proof.
  intro Hr. destruct (in_avg_df sqrt df r Hr) as [_ Hk].
  apply in_group_keys, in_map_iff in Hk.
  destruct Hk as (m & E & Hm). exists m. auto.
Qed.




End AggregatorClaims.

(** The aggregation of the specification's scenario: the means 11, 21 and
    40, one row per size. *)
Example scenario_means :
  map (fun r => (num_instances r, avg_time_ms r, min_time_ms r, max_time_ms r))
    (method_data (snd (load_data Sample.sqrt Sample.scenario)) "A")
  = [ (100%Z, Fin (22 # 2), Fin 10, Fin 12);
      (200%Z, Fin (42 # 2), Fin 20, Fin 22);
      (400%Z, Fin (80 # 2), Fin 39, Fin 41) ].
Proof. vm_compute. reflexivity. Qed.

(** ** Standard deviation and empty input: claims C3, C7 *)

Lemma Qlen_cons (x : Q) (l : list Q) : Qlen (x :: l) == 1 + Qlen l.
Proof.
  unfold Qlen. cbn [List.length]. rewrite Nat2Z.inj_succ.
  unfold Z.succ. rewrite inject_Z_plus. ring.
Qed.

Lemma Qlen_nonneg (l : list Q) : 0 <= Qlen l.
Proof.
  unfold Qlen. change 0 with (inject_Z 0). rewrite <- Zle_Qle. lia.
Qed.

Lemma Qsum_const (t : Q) (l : list Q) :
  (forall x, In x l -> x == t) -> Qsum l == Qlen l * t.
Proof.
  induction l as [|x l IH]; intro H.
  - unfold Qlen. simpl. ring.
  - pose proof (IH (fun y Hy => H y (or_intror Hy))) as E.
    pose proof (H x (or_introl eq_refl)) as Ex.
    rewrite Qsum_cons, Qlen_cons, E, Ex. ring.
Qed.

Lemma Qmean_const (t : Q) (l : list Q) :
  l <> [] -> (forall x, In x l -> x == t) -> Qmean l == t.
Proof.
  intros Hne H. unfold Qmean. rewrite (Qsum_const t l H).
  destruct l as [|x l]; [congruence|].
  pose proof (Qlen_pos x l). field. lra.
Qed.

Lemma Qsum_zero (f : Q -> Q) (l : list Q) :
  (forall x, In x l -> f x == 0) -> Qsum (map f l) == 0.
Proof.
  induction l as [|x l IH]; intro H; cbn [map]; [reflexivity|].
  pose proof (IH (fun y Hy => H y (or_intror Hy))) as E.
  pose proof (H x (or_introl eq_refl)) as Ex.
  rewrite Qsum_cons, E, Ex. ring.
Qed.

(** C3, as stated, fails: the standard deviation of a group with a single
    measurement is [nan], not 0. *)
Lemma single_measurement_std_is_nan :
  map std_time_ms
    (snd (load_data Sample.sqrt [Sample.row "kmeans" 10 100 5])) = [NaN] /\
  ~ num_eq NaN (Fin 0).
Proof. split; [reflexivity | intros []]. Qed.

(** C3, amended: for a group whose k measurements are identical, the
    standard deviation is exactly 0 when k ≥ 2 and [nan] when k = 1 (the
    sample standard deviation divides by k − 1).  The group has k ≥ 1
    members, but the aggregated row itself carries no sample count: its
    columns are the mean, the standard deviation, the minimum and the
    maximum. *)
Theorem identical_measurements_std (sqrt : Q -> Q) (df : list measurement)
  (r : avg_row) (t : Q) :
  (forall q, q == 0 -> sqrt q == 0) ->
  In r (snd (load_data sqrt df)) ->
  (forall x, In x (group_times df (row_key r)) -> x == t) ->
  let k := List.length (group_times df (row_key r)) in
  (1 <= k)%nat /\
  (k = 1%nat -> std_time_ms r = NaN) /\
  ((2 <= k)%nat -> num_eq (std_time_ms r) (Fin 0)).
Proof.
  intros Hsqrt Hr Hall k.
  destruct (in_avg_df sqrt df r Hr) as [Hagg Hk].
  pose proof (group_times_nonempty df _ Hk) as Hne.
  assert (Hstd : std_time_ms r = agg_std sqrt (group_times df (row_key r)))
    by (rewrite Hagg at 1; reflexivity).
  subst k. rewrite Hstd.
  generalize dependent (group_times df (row_key r)). intros ts Hall Hne _.
  split; [destruct ts; [congruence | simpl; lia]|].
  split; [intro H1; unfold agg_std; rewrite H1; reflexivity|].
  intro H2. unfold agg_std.
  destruct (Nat.leb (List.length ts) 1) eqn:E;
    [apply Nat.leb_le in E; lia|].
  cbn [num_eq]. apply Hsqrt.
  rewrite Qsum_zero.
  - unfold Qdiv. ring.
  - intros x Hx. rewrite (Hall x Hx), (Qmean_const t ts Hne Hall). ring.
Qed.

(** C3, amended, at three identical measurements of one group. *)
Lemma identical_measurements_std_witness :
  (1 <= List.length
          (group_times Sample.three_identical
             (row_key (aggregate Sample.sqrt Sample.three_identical
                         ("kmeans", 10%Z, 100%Z)))))%nat /\
  (List.length
     (group_times Sample.three_identical
        (row_key (aggregate Sample.sqrt Sample.three_identical
                    ("kmeans", 10%Z, 100%Z)))) = 1%nat ->
   std_time_ms (aggregate Sample.sqrt Sample.three_identical
                  ("kmeans", 10%Z, 100%Z)) = NaN) /\
  ((2 <= List.length
           (group_times Sample.three_identical
              (row_key (aggregate Sample.sqrt Sample.three_identical
                          ("kmeans", 10%Z, 100%Z)))))%nat ->
   num_eq (std_time_ms (aggregate Sample.sqrt Sample.three_identical
                          ("kmeans", 10%Z, 100%Z))) (Fin 0)).
Proof.
  apply (identical_measurements_std Sample.sqrt Sample.three_identical
           (aggregate Sample.sqrt Sample.three_identical
              ("kmeans", 10%Z, 100%Z)) 5).
  - intros q Hq. unfold Sample.sqrt, Qeq in *. simpl in *.
    assert (E : Qnum q = 0%Z) by lia. rewrite E. reflexivity.
  - left. reflexivity.
  - intros x Hx. vm_compute in Hx.
    destruct Hx as [<-|[<-|[<-|[]]]]; reflexivity.
Defined.

(** C7, as stated, fails: on an empty table nothing is raised; the
    aggregation, the analysis and the report all come out empty. *)
Lemma empty_input_is_not_an_error :
  main Sample.ln Sample.sqrt Sample.curve_fit
    Sample.format_4f Sample.format_params []
  = Ok ([], []) /\
  ~ raises (main Sample.ln Sample.sqrt Sample.curve_fit
              Sample.format_4f Sample.format_params []).
Proof. split; [reflexivity | intros []]. Qed.

(** C7, amended: given zero observations the aggregation returns an empty
    table, the loop over the methods returns an empty mapping without
    fitting anything, and the best-fit section of the report is empty;
    nothing is raised. *)
Theorem empty_input_gives_empty_analysis
  (ln sqrt : Q -> Q)
  (curve_fit : callable -> array -> array -> list Q -> Z -> result (list Q))
  (format_4f : num -> string) (format_params : dict Q -> string) :
  load_data sqrt [] = ([], []) /\
  plot_individual_methods ln sqrt curve_fit [] = Ok [] /\
  main ln sqrt curve_fit format_4f format_params [] = Ok ([], []).
Proof. repeat split. Qed.

(** ** Machine arithmetic: claims C4, C8 *)

(** An int64 result that fits is not changed by the wrap. *)
Lemma int64_wrap_small (z : Z) :
  (- 2 ^ 63 <= z < 2 ^ 63)%Z -> F64.int64_wrap z = z.
Proof.
  intro H. unfold F64.int64_wrap.
  rewrite Z.mod_small by lia. lia.
Qed.

Section MachineArithmetic.

Import PrimFloat.
Local Open Scope float_scope.

(** C4: for observed and predicted vectors of equal length lines 106-108
    raise nothing and return [1 − ss_res/ss_tot] when the computed [ss_tot]
    is positive and 0 otherwise.  The computed [ss_tot] is not the
    [SS_tot] of the specification: for three observations equal to the
    double 0.1, whose [SS_tot] is 0, [np.mean] returns the next double
    above 0.1, the computed [ss_tot] is 1.5·2^-110 > 0 and the division
    takes place: the score is 1 against predictions equal to the
    observations and about -1.7e31 against the predictions 0.1, 0.1, 0.2,
    where the convention asks for 0.  On three observations equal to 5 the
    mean is exact and the score is 0. *)
Theorem score_r_squared_identical_observations :
  (forall time_values predictions : list float,
      List.length time_values = List.length predictions ->
      exists res,
        F64.ss_res time_values predictions = Ok res /\
        F64.score_r_squared time_values predictions
        = Ok (if 0 <? F64.ss_tot time_values
              then 1 - res / F64.ss_tot time_values
              else 0)) /\
  (forall q : Q, (Spec.ss_tot [q; q; q] == 0)%Q) /\
  F64.np_mean [F64.tenth; F64.tenth; F64.tenth] = 0x1.999999999999bp-4 /\
  F64.ss_tot [F64.tenth; F64.tenth; F64.tenth] = 0x1.8p-111 /\
  (0 <? F64.ss_tot [F64.tenth; F64.tenth; F64.tenth]) = true /\
  F64.score_r_squared [F64.tenth; F64.tenth; F64.tenth]
    [F64.tenth; F64.tenth; F64.tenth] = Ok 1 /\
  F64.score_r_squared [F64.tenth; F64.tenth; F64.tenth]
    [F64.tenth; F64.tenth; F64.fifth] = Ok (-0x1.b4e81b4e81b5p+103) /\
  F64.score_r_squared [5; 5; 5] [1; 2; 3] = Ok 0.
Proof.
  split.
  { intros t p Hlen. unfold F64.score_r_squared, F64.ss_res, F64.broadcast.
    rewrite Hlen, Nat.eqb_refl. cbn [bind].
    eexists. split; reflexivity. }
  split.
  { intro q. unfold Spec.ss_tot, Qmean, Qlen, Qsum.
    cbn [map fold_right List.length]. simpl inject_Z. field. }
  repeat split; vm_compute; reflexivity.
Qed.

(** C8: the catalog declares 2, 3, 2 and 2 parameters, and on the int64
    sizes line 105 passes, the models compute their declared formulas as
    long as the integer subexpressions fit in 64 bits: Linear always,
    Quadratic for 0 ≤ n ≤ 3037000499, and the two logarithmic models for
    0 ≤ n < 2^63 − 1, where the argument n + 1 of the logarithm is
    positive, also at n = 0.  Above 3037000499 the square n² wraps: at
    n = 4000000000 with a = 1, b = c = 0 Quadratic returns
    -2446744073709551616 (about -2.4e18) where the declared formula gives
    1.6e19, the value the same function returns on the float64 sizes of
    [curve_fit] and of line 174. *)
Theorem quadratic_wraps_on_int64_sizes (ln : Q -> Q) (log : float -> float) :
  catalog ln
  = [ ("O(n)", 2%nat); ("O(n²)", 3%nat);
      ("O(n log n)", 2%nat); ("O(log n)", 2%nat) ] /\
  (forall n a b, F64.linear n a b = a * F64.of_int64 n + b) /\
  (forall n a b c,
      (0 <= n <= 3037000499)%Z ->
      F64.quadratic n a b c
      = a * F64.of_int64 (n * n) + b * F64.of_int64 n + c) /\
  (forall n a b,
      (0 <= n < 2 ^ 63 - 1)%Z ->
      (0 < F64.int64_wrap (n + 1))%Z /\
      F64.nlogn log n a b
      = a * F64.of_int64 n * log (F64.of_int64 (n + 1)) + b /\
      F64.logarithmic log n a b = a * log (F64.of_int64 (n + 1)) + b) /\
  F64.int64_wrap (4000000000 ^ 2) = (-2446744073709551616)%Z /\
  F64.quadratic 4000000000 1 0 0 = -0x1.0fa4a62c4ep+61 /\
  F64.int64_wrap (4000000000 ^ 2) <> (4000000000 ^ 2)%Z /\
  F64.quadratic_on_float (F64.of_int64 4000000000) 1 0 0
  = 0x1.bc16d674ec8p+63.
Proof.
  split; [reflexivity|]. split; [reflexivity|]. split.
  { intros n a b c Hn. unfold F64.quadratic.
    rewrite (int64_wrap_small (n ^ 2)) by nia.
    replace (n ^ 2)%Z with (n * n)%Z by ring. reflexivity. }
  split.
  { intros n a b Hn. unfold F64.nlogn, F64.logarithmic.
    rewrite (int64_wrap_small (n + 1)) by lia.
    split; [lia|]. split; reflexivity. }
  split; [vm_compute; reflexivity|].
  split; [vm_compute; reflexivity|].
  split; [vm_compute; discriminate|].
  vm_compute; reflexivity.
Qed.

End MachineArithmetic.

(** * Further properties of the script *)

(** ** Scores *)

Lemma Qdiv_nonneg (a b : Q) : 0 <= a -> 0 < b -> 0 <= a / b.
Proof.
  intros Ha Hb. unfold Qdiv.
  apply Qmult_le_0_compat; [exact Ha|].
  apply Qlt_le_weak, Qinv_lt_0_compat. exact Hb.
Qed.

Lemma Qdiv_zero_iff (a b : Q) : 0 < b -> (a / b == 0 <-> a == 0).
Proof.
  intro Hb. split; intro H.
  - assert (E : a == a / b * b) by (field; lra).
    rewrite E, H. ring.
  - rewrite H. unfold Qdiv. ring.
Qed.

Lemma ss_res_nonneg (observed predicted : list Q) :
  0 <= Spec.ss_res observed predicted.
Proof. rewrite <- ss_res_spec. apply Qsum_squares_nonneg. Qed.

Lemma ss_res_self (observed : list Q) : Spec.ss_res observed observed == 0.
Proof.
  unfold Spec.ss_res. induction observed as [|o l IH]; cbn [map2];
    [reflexivity|].
  rewrite Qsum_cons, IH. ring.
Qed.

(** The coefficient of determination never exceeds 1: for observed and
    predicted vectors of equal length the score is a number [r <= 1]; on a
    series that is not constant it is 1 when the residuals are all zero,
    as they are when the predictions are the observations. *)
Theorem score_r_squared_at_most_one (observed predicted : list Q) :
  List.length observed = List.length predicted ->
  exists r,
    score_r_squared (map Fin observed) (map Fin predicted) = Ok (Fin r) /\
    r <= 1 /\
    (~ Spec.ss_tot observed == 0 ->
     (Spec.ss_res observed predicted == 0 -> r == 1) /\
     exists r1,
       score_r_squared (map Fin observed) (map Fin observed) = Ok (Fin r1) /\
       r1 == 1).
Proof.
  intro Hlen.
  assert (Hval : forall p, List.length observed = List.length p ->
            exists r,
              score_r_squared (map Fin observed) (map Fin p) = Ok (Fin r) /\
              (Spec.ss_tot observed == 0 -> r == 0) /\
              (~ Spec.ss_tot observed == 0 ->
               0 < Spec.ss_tot observed /\
               r == 1 - Spec.ss_res observed p / Spec.ss_tot observed)).
  { intros p Hp.
    rewrite (score_r_squared_fin _ _ _ (arr_sub_same_length _ _ Hp)).
    cbv zeta.
    pose proof (ss_tot_spec observed) as Htot.
    pose proof (ss_res_spec observed p) as Hres.
    destruct (Qltb 0 _) eqn:E.
    - apply Qltb_lt in E. eexists. split; [reflexivity|]. split.
      + intro H0. rewrite Htot, H0 in E. exfalso. lra.
      + intros _. rewrite Htot in E. split; [exact E|].
        rewrite Hres, Htot. ring.
    - apply Qltb_ge in E. exists 0. split; [reflexivity|].
      split; [reflexivity|].
      intro Hn. exfalso. apply Hn. rewrite <- Htot.
      apply Qle_antisym; [exact E | apply Qsum_squares_nonneg]. }
  destruct (Hval predicted Hlen) as (r & Hr & H0 & H1).
  exists r. split; [exact Hr|]. split.
  - destruct (Qeq_dec (Spec.ss_tot observed) 0) as [E|E].
    + rewrite (H0 E). lra.
    + destruct (H1 E) as [Hpos ->].
      pose proof (Qdiv_nonneg _ _ (ss_res_nonneg observed predicted) Hpos).
      lra.
  - intro E. destruct (H1 E) as [Hpos Hrv]. split.
    + intro Hz. apply (Qdiv_zero_iff _ _ Hpos) in Hz. lra.
    + destruct (Hval observed eq_refl) as (r1 & Hr1 & _ & H1').
      exists r1. split; [exact Hr1|].
      destruct (H1' E) as [_ ->].
      pose proof (ss_res_self observed) as Hs.
      apply (Qdiv_zero_iff _ _ Hpos) in Hs. lra.
Qed.

(** At the series 1, 2, 4 against the predictions 1, 3, 3. *)
Lemma score_r_squared_at_most_one_witness :
  exists r,
    score_r_squared (map Fin [1; 2; 4]) (map Fin [1; 3; 3]) = Ok (Fin r) /\
    r <= 1 /\
    (~ Spec.ss_tot [1; 2; 4] == 0 ->
     (Spec.ss_res [1; 2; 4] [1; 3; 3] == 0 -> r == 1) /\
     exists r1,
       score_r_squared (map Fin [1; 2; 4]) (map Fin [1; 2; 4]) = Ok (Fin r1) /\
       r1 == 1).
Proof.
  apply (score_r_squared_at_most_one [1; 2; 4] [1; 3; 3]). reflexivity.
Defined.

Lemma map2_length_eq {A B C : Type} (f : A -> B -> C) (xs : list A)
  (ys : list B) :
  List.length xs = List.length ys ->
  List.length (map2 f xs ys) = List.length xs.
Proof.
  revert ys. induction xs as [|x xs IH]; intros [|y ys] H; simpl in *;
    try reflexivity; try discriminate.
  f_equal. apply IH. lia.
Qed.

(** The root-mean-square error of vectors of equal length: [nan] when they
    are empty (the mean of an empty array), and otherwise the square root
    of [SS_res / n], whose argument is never negative. *)
Theorem score_rmse_value (sqrt : Q -> Q) (observed predicted : list Q) :
  List.length observed = List.length predicted ->
  (observed = [] ->
   score_rmse sqrt (map Fin observed) (map Fin predicted) = Ok NaN) /\
  (observed <> [] ->
   exists q,
     score_rmse sqrt (map Fin observed) (map Fin predicted)
     = Ok (Fin (sqrt q)) /\
     0 <= q /\
     q == Spec.ss_res observed predicted / Qlen observed).
Proof.
  intro Hlen. unfold score_rmse.
  rewrite (arr_sub_same_length _ _ Hlen). cbn [bind].
  rewrite arr_sq_fin. split.
  - intros ->. destruct predicted; [reflexivity | discriminate].
  - intro Hne.
    pose proof (map2_length_eq (fun x y => x + - y) _ _ Hlen) as Hl.
    remember (map2 (fun x y => x + - y) observed predicted) as ds eqn:Hds.
    destruct ds as [|d ds].
    { destruct observed; [congruence | discriminate]. }
    cbn [map]. rewrite <- (map_cons Fin), np_mean_fin.
    assert (Hq : Qmean ((d * d) :: map (fun q => q * q) ds)
                 == Spec.ss_res observed predicted / Qlen observed).
    { unfold Qmean. rewrite <- ss_res_spec, <- Hds. cbn [map].
      unfold Qlen. cbn [List.length]. rewrite length_map.
      simpl List.length in Hl. rewrite <- Hl. reflexivity. }
    assert (Hpos : 0 <= Qmean ((d * d) :: map (fun q => q * q) ds)).
    { unfold Qmean. apply Qdiv_nonneg; [|apply Qlen_pos].
      apply (Qsum_squares_nonneg (d :: ds)). }
    eexists. split; [|split; [exact Hpos | exact Hq]].
    cbn [np_sqrt].
    destruct (Qltb _ 0) eqn:E; [|reflexivity].
    apply Qltb_lt in E. exfalso. lra.
Qed.

(** At the series 1, 2, 4 against the predictions 1, 3, 3. *)
Lemma score_rmse_value_witness :
  ([1; 2; 4] = [] ->
   score_rmse Sample.sqrt (map Fin [1; 2; 4]) (map Fin [1; 3; 3]) = Ok NaN) /\
  ([1; 2; 4] <> [] ->
   exists q,
     score_rmse Sample.sqrt (map Fin [1; 2; 4]) (map Fin [1; 3; 3])
     = Ok (Fin (Sample.sqrt q)) /\
     0 <= q /\
     q == Spec.ss_res [1; 2; 4] [1; 3; 3] / Qlen [1; 2; 4]).
Proof.
  apply (score_rmse_value Sample.sqrt [1; 2; 4] [1; 3; 3]). reflexivity.
Defined.

(** ** Fits *)

Lemma dict_get_in {V : Type} (k : string) (v : V) (d : dict V) :
  NoDup (keys d) -> In (k, v) d -> dict_get k d = Some v.
Proof.
  induction d as [|[k' v'] d IH]; intros Hnd Hin; [destruct Hin|].
  simpl in Hnd. inversion Hnd as [|? ? Hk Hd]; subst.
  simpl. destruct Hin as [E|Hin].
  - inversion E; subst. rewrite String.eqb_refl. reflexivity.
  - destruct (String.eqb k k') eqn:E.
    + apply String.eqb_eq in E. subst k'. exfalso. apply Hk.
      unfold keys. apply (in_map fst) in Hin. exact Hin.
    + apply IH; assumption.
Qed.

Lemma arr_sub_equal_length (xs ys : array) :
  List.length xs = List.length ys -> exists d, arr_sub xs ys = Ok d.
Proof.
  intro H. unfold arr_sub, broadcast. rewrite H, Nat.eqb_refl. eauto.
Qed.

Section FitProperties.

Variable ln : Q -> Q.
Variable sqrt : Q -> Q.
Variable curve_fit : callable -> array -> array -> list Q -> Z -> result (list Q).

Lemma NoDup_fit_table_keys (n t : array) :
  NoDup (keys (fit_table ln sqrt curve_fit n t)).
Proof.
  unfold fit_table, MODELS, keys. cbn [map fst].
  repeat constructor; simpl; intuition discriminate.
Qed.

(** A catalog model accepts exactly as many parameters as it declares. *)
Lemma model_arity (name : string) (f : callable) (pn : list string)
  (n : array) (args : list Q) :
  In (name, (f, pn)) (MODELS ln) ->
  (List.length args = List.length pn ->
   exists p, f n args = Ok p /\ List.length p = List.length n) /\
  (List.length args <> List.length pn -> f n args = Raise TypeError).
Proof.
  unfold MODELS. simpl.
  intros [H|[H|[H|[H|[]]]]]; inversion H; subst; clear H;
    unfold call2, call3;
    destruct args as [|a [|b [|c [|d args]]]]; simpl;
    split; intro E; try (exfalso; lia); try reflexivity;
    try (eexists; split; [reflexivity | apply length_map]).
Qed.

(** With arrays of equal length the only causes of a failed fit are
    [curve_fit] raising and [curve_fit] returning a parameter vector of
    the wrong length: the scoring itself cannot fail. *)
Lemma fit_model_fails_iff (name : string) (f : callable) (pn : list string)
  (n t : array) :
  In (name, (f, pn)) (MODELS ln) ->
  List.length n = List.length t ->
  (marker (fit_model sqrt curve_fit f pn n t) = None <->
   raises (curve_fit f n t (repeat 1 (List.length pn)) 10000%Z) \/
   exists args,
     curve_fit f n t (repeat 1 (List.length pn)) 10000%Z = Ok args /\
     List.length args <> List.length pn).
Proof.
  intros Hin Hlen. unfold fit_model.
  destruct (curve_fit f n t _ _) as [args|e]; cbn [bind].
  - destruct (model_arity name f pn n args Hin) as [Hok Hbad].
    destruct (Nat.eq_dec (List.length args) (List.length pn)) as [E|E].
    + destruct (Hok E) as (p & -> & Hp). cbn [bind].
      assert (Htp : List.length t = List.length p) by congruence.
      unfold score_r_squared, score_rmse.
      destruct (arr_sub_equal_length t p Htp) as (d & ->). cbn [bind marker].
      split; [discriminate|].
      intros [[] | (args' & E' & Hne)]. inversion E'; subst. contradiction.
    + rewrite (Hbad E). cbn [bind marker]. split; [|reflexivity].
      intros _. right. exists args. auto.
  - cbn [marker raises]. split; [intros _; left; exact I | reflexivity].
Qed.

Lemma dict_get_fit_table (name : string) (f : callable) (pn : list string)
  (n t : array) :
  In (name, (f, pn)) (MODELS ln) ->
  dict_get name (fit_table ln sqrt curve_fit n t)
  = Some (marker (fit_model sqrt curve_fit f pn n t)).
Proof.
  intro Hin. apply dict_get_in; [apply NoDup_fit_table_keys|].
  unfold fit_table.
  apply (in_map (fun entry =>
                   (fst entry,
                    marker (fit_model sqrt curve_fit (fst (snd entry))
                              (snd (snd entry)) n t)))) in Hin.
  exact Hin.
Qed.

Lemma in_plot_results (avg_df : list avg_row) (m : string) (a : analysis) :
  In (m, a)
    (map (fun m0 => (m0, method_analysis ln sqrt curve_fit avg_df m0))
       (unique String.eqb (map method avg_df))) ->
  a = method_analysis ln sqrt curve_fit avg_df m /\
  exists r, In r avg_df /\ method r = m.
Proof.
  intro H. apply in_map_iff in H. destruct H as (m0 & E & Hm).
  inversion E; subst. split; [reflexivity|].
  apply (proj1 (in_unique String.eqb _ method_eqb_spec _)) in Hm.
  apply in_map_iff in Hm. destruct Hm as (r & Hr & Hin). eauto.
Qed.

(** In the analysis the two arrays handed to the fitter always have the
    same, non-zero length (a method has at least one aggregated row), so a
    model of a method is marked failed exactly when [curve_fit] raised or
    returned a parameter vector whose length is not the model's: the
    scoring never fails there. *)
Theorem analysis_fails_only_in_curve_fit (avg_df : list avg_row) :
  exists results,
    plot_individual_methods ln sqrt curve_fit avg_df = Ok results /\
    forall m a,
      In (m, a) results ->
      method_data avg_df m <> [] /\
      List.length (n_values_of (method_data avg_df m))
      = List.length (map avg_time_ms (method_data avg_df m)) /\
      forall name f pn,
        In (name, (f, pn)) (MODELS ln) ->
        (dict_get name (fit_results a) = Some None <->
         raises (curve_fit f (n_values_of (method_data avg_df m))
                   (map avg_time_ms (method_data avg_df m))
                   (repeat 1 (List.length pn)) 10000%Z) \/
         exists args,
           curve_fit f (n_values_of (method_data avg_df m))
             (map avg_time_ms (method_data avg_df m))
             (repeat 1 (List.length pn)) 10000%Z = Ok args /\
           List.length args <> List.length pn).
Proof.
  rewrite plot_individual_methods_table. eexists. split; [reflexivity|].
  intros m a Hin.
  destruct (in_plot_results avg_df m a Hin) as (-> & r & Hr & Hm).
  assert (Hlen : List.length (n_values_of (method_data avg_df m))
                 = List.length (map avg_time_ms (method_data avg_df m)))
    by (unfold n_values_of; rewrite !length_map; reflexivity).
  split.
  - intro E.
    assert (Hin' : In r (method_data avg_df m))
      by (apply in_method_data; auto).
    rewrite E in Hin'. destruct Hin'.
  - split; [exact Hlen|].
    intros name f pn Hmod. unfold method_analysis. cbn [fit_results].
    rewrite (dict_get_fit_table name f pn _ _ Hmod).
    rewrite <- (fit_model_fails_iff name f pn _ _ Hmod Hlen).
    split; [intro H; inversion H; reflexivity | intros ->; reflexivity].
Qed.

(** A successful fit carries exactly the parameters its model declares:
    [params] pairs the declared names, in order, with the fitted values
    [popt]; looking a declared name up gives its value; there is one
    prediction per size; and the callable stored is the model's. *)
Theorem fit_model_params (name : string) (f : callable) (pn : list string)
  (n t : array) (r : fit) :
  In (name, (f, pn)) (MODELS ln) ->
  fit_model sqrt curve_fit f pn n t = Ok r ->
  List.length (popt r) = List.length pn /\
  params r = combine pn (popt r) /\
  (forall i pname,
      nth_error pn i = Some pname ->
      dict_get pname (params r) = nth_error (popt r) i) /\
  List.length (predictions r) = List.length n /\
  model_func r n (popt r) = Ok (predictions r).
Proof.
  intros Hin. unfold fit_model.
  destruct (curve_fit f n t _ _) as [args|e]; cbn [bind]; [|discriminate].
  destruct (model_arity name f pn n args Hin) as [Hok Hbad].
  destruct (Nat.eq_dec (List.length args) (List.length pn)) as [E|E];
    [|rewrite (Hbad E); discriminate].
  destruct (Hok E) as (p & Hf & Hp). rewrite Hf. cbn [bind].
  destruct (score_r_squared t p); cbn [bind]; [|discriminate].
  destruct (score_rmse sqrt t p); cbn [bind]; [|discriminate].
  intro H. inversion H; subst; clear H. cbn [popt params predictions model_func].
  split; [exact E|].
  assert (Hdict : dict_of (combine pn args) = combine pn args /\
                  forall i pname,
                    nth_error pn i = Some pname ->
                    dict_get pname (combine pn args) = nth_error args i).
  { clear Hok Hbad Hf. unfold MODELS in Hin. simpl in Hin.
    destruct Hin as [H|[H|[H|[H|[]]]]]; inversion H; subst; clear H;
      destruct args as [|x1 [|x2 [|x3 [|x4 args]]]]; try discriminate E;
      (split; [reflexivity|]);
      intros [|[|[|i]]] pname Hn; simpl in Hn; inversion Hn; subst;
      try reflexivity; destruct i; discriminate. }
  destruct Hdict as [Hd Hget]. rewrite Hd.
  repeat split; auto.
Qed.

End FitProperties.

(** At the sizes 0, 1, 2 with the times 10, 0, 10 and the linear model. *)
Lemma fit_model_params_witness :
  exists r,
    fit_model Sample.sqrt Sample.curve_fit (call2 linear) ["a"; "b"]
      (map Fin [0; 1; 2]) (map Fin [10; 0; 10]) = Ok r /\
    List.length (popt r) = List.length ["a"; "b"] /\
    params r = combine ["a"; "b"] (popt r) /\
    (forall i pname,
        nth_error ["a"; "b"] i = Some pname ->
        dict_get pname (params r) = nth_error (popt r) i) /\
    List.length (predictions r) = List.length (map Fin [0; 1; 2]) /\
    model_func r (map Fin [0; 1; 2]) (popt r) = Ok (predictions r).
Proof.
  eexists. split; [vm_compute; reflexivity|].
  apply (fit_model_params Sample.ln Sample.sqrt Sample.curve_fit
           "O(n)" (call2 linear) ["a"; "b"]
           (map Fin [0; 1; 2]) (map Fin [10; 0; 10])).
  - left. reflexivity.
  - vm_compute. reflexivity.
Defined.

(** ** Selection in the analysis *)

(** Against a series whose values all equal its mean every score is
    exactly 0, whatever the predictions are. *)
Lemma score_r_squared_constant (ts : list Q) (t : Q) (p : array) (r : num) :
  (forall x, In x ts -> x == t) ->
  score_r_squared (map Fin ts) p = Ok r -> r = Fin 0.
Proof.
  intros Hall. unfold score_r_squared.
  destruct (arr_sub (map Fin ts) p) as [d|e]; cbn [bind]; [|discriminate].
  rewrite ss_tot_fin. cbn [gt].
  destruct (Qltb 0 _) eqn:E; [|intro H; inversion H; reflexivity].
  exfalso. apply Qltb_lt in E. rewrite map_map in E.
  rewrite Qsum_zero in E; [lra|].
  intros x Hx.
  assert (Hne : ts <> []) by (intro E0; subst; destruct Hx).
  rewrite (Hall x Hx), (Qmean_const t ts Hne Hall). ring.
Qed.

Section SelectionProperties.

Variable ln : Q -> Q.
Variable sqrt : Q -> Q.
Variable curve_fit : callable -> array -> array -> list Q -> Z -> result (list Q).

(** Whenever the analysis of a method names a best model, that model's
    fit is in [fit_results] under that name, its R² is the [best_r2]
    stored, which is above -inf, and the report [generate_summary_report]
    writes for the analysis holds, in one piece, the lines of that method
    with the model, the score and the parameter line of that fit. *)
Theorem selected_model_is_reported
  (format_4f : num -> string) (format_params : dict Q -> string)
  (avg_df : list avg_row) :
  exists results,
    plot_individual_methods ln sqrt curve_fit avg_df = Ok results /\
    forall m a name,
      In (m, a) results ->
      best_model a = Some name ->
      exists res,
        dict_get name (fit_results a) = Some (Some res) /\
        r_squared res = best_r2 a /\
        gt (best_r2 a) NInf = true /\
        exists before after,
          generate_summary_report format_4f format_params results
          = (before
             ++ [ ("Method: " ++ m)%string;
                  ("  Best fit model: " ++ name)%string;
                  ("  R² score: " ++ format_4f (r_squared res))%string;
                  ("  Parameters: " ++ format_params (params res))%string;
                  "" ]
             ++ after)%list.
Proof.
  rewrite plot_individual_methods_table. eexists. split; [reflexivity|].
  intros m a name Hin Hbest.
  destruct (report_method_in_report format_4f format_params _ m a Hin)
    as (before & after & Hreport).
  destruct (in_plot_results ln sqrt curve_fit avg_df m a Hin) as (-> & _).
  unfold method_analysis in *. cbn [best_model best_r2 fit_results] in *.
  set (table := fit_table ln sqrt curve_fit
                  (n_values_of (method_data avg_df m))
                  (map avg_time_ms (method_data avg_df m))) in *.
  destruct (determine_best_model_cases table)
    as [[Hsel _] | (pre & m' & res & post & Hd & Hsel & Hgt & _)];
    rewrite Hsel in Hbest; cbn [fst] in Hbest; [discriminate|].
  inversion Hbest; subst m'; clear Hbest.
  assert (Hget : dict_get name table = Some (Some res)).
  { apply dict_get_in; [apply NoDup_fit_table_keys|].
    rewrite Hd. apply in_or_app. right. left. reflexivity. }
  exists res. rewrite Hsel. cbn [fst snd].
  split; [exact Hget|]. split; [reflexivity|]. split; [exact Hgt|].
  exists before, after. rewrite Hreport.
  unfold report_method, get_best. cbn [best_model best_r2 fit_results].
  fold table. rewrite Hsel. cbn [fst snd]. rewrite Hget. reflexivity.
Qed.

End SelectionProperties.

(** ** Aggregated rows *)

Lemma fold_Qmin_spec (l : list Q) :
  forall x,
    In (fold_left Qmin l x) (x :: l) /\
    forall y, In y (x :: l) -> fold_left Qmin l x <= y.
Proof.
  induction l as [|z l IH]; intro x; cbn [fold_left].
  - split; [left; reflexivity|]. intros y [<-|[]]. apply Qle_refl.
  - destruct (IH (Qmin x z)) as [Hin Hle]. split.
    + destruct Hin as [E|Hin]; [|right; right; exact Hin].
      rewrite <- E. unfold Qmin, GenericMinMax.gmin.
      destruct (x ?= z); simpl; auto.
    + intros y Hy.
      assert (Hm : fold_left Qmin l (Qmin x z) <= Qmin x z)
        by (apply Hle; left; reflexivity).
      destruct Hy as [<-|[<-|Hy]].
      * eapply Qle_trans; [exact Hm | apply Q.le_min_l].
      * eapply Qle_trans; [exact Hm | apply Q.le_min_r].
      * apply Hle. right. exact Hy.
Qed.

Lemma fold_Qmax_spec (l : list Q) :
  forall x,
    In (fold_left Qmax l x) (x :: l) /\
    forall y, In y (x :: l) -> y <= fold_left Qmax l x.
Proof.
  induction l as [|z l IH]; intro x; cbn [fold_left].
  - split; [left; reflexivity|]. intros y [<-|[]]. apply Qle_refl.
  - destruct (IH (Qmax x z)) as [Hin Hle]. split.
    + destruct Hin as [E|Hin]; [|right; right; exact Hin].
      rewrite <- E. unfold Qmax, GenericMinMax.gmax.
      destruct (x ?= z); simpl; auto.
    + intros y Hy.
      assert (Hm : Qmax x z <= fold_left Qmax l (Qmax x z))
        by (apply Hle; left; reflexivity).
      destruct Hy as [<-|[<-|Hy]].
      * eapply Qle_trans; [apply Q.le_max_l | exact Hm].
      * eapply Qle_trans; [apply Q.le_max_r | exact Hm].
      * apply Hle. right. exact Hy.
Qed.

Lemma list_sum_map_add {A : Type} (f g : A -> nat) (l : list A) :
  list_sum (map (fun x => (f x + g x)%nat) l)
  = (list_sum (map f l) + list_sum (map g l))%nat.
Proof. induction l as [|x l IH]; simpl; [reflexivity | rewrite IH; lia]. Qed.

Lemma list_sum_cons (x : nat) (l : list nat) :
  list_sum (x :: l) = (x + list_sum l)%nat.
Proof. reflexivity. Qed.

Lemma key_indicator_zero (x : group_key) (K : list group_key) :
  ~ In x K ->
  list_sum (map (fun k => if key_eqb x k then 1%nat else 0%nat) K) = 0%nat.
Proof.
  induction K as [|k K IH]; intro Hx; [reflexivity|].
  rewrite map_cons, list_sum_cons. cbv beta.
  destruct (key_eqb x k) eqn:E.
  - apply key_eqb_spec in E. subst k. exfalso. apply Hx. left. reflexivity.
  - rewrite IH; [reflexivity|]. intro H. apply Hx. right. exact H.
Qed.

Lemma key_indicator_sum (x : group_key) (K : list group_key) :
  NoDup K -> In x K ->
  list_sum (map (fun k => if key_eqb x k then 1%nat else 0%nat) K) = 1%nat.
Proof.
  induction 1 as [|k K Hk Hnd IH]; intro Hin; [destruct Hin|].
  rewrite map_cons, list_sum_cons. cbv beta.
  destruct (key_eqb x k) eqn:E.
  - apply key_eqb_spec in E. subst k.
    rewrite (key_indicator_zero x K Hk). reflexivity.
  - destruct Hin as [->|Hin].
    + assert (E' : key_eqb x x = true) by (apply key_eqb_spec; reflexivity).
      congruence.
    + rewrite (IH Hin). reflexivity.
Qed.

(** Groups over distinct keys that cover the table partition it. *)
Lemma group_sizes_sum (df : list measurement) :
  forall K : list group_key,
    NoDup K ->
    (forall m, In m df -> In (key_of m) K) ->
    list_sum (map (fun k => List.length (group_times df k)) K)
    = List.length df.
Proof.
  unfold group_times.
  induction df as [|m df IH]; intros K Hnd Hcov.
  - clear. induction K as [|k K IHK]; [reflexivity | exact IHK].
  - rewrite (map_ext _ (fun k =>
               ((if key_eqb (key_of m) k then 1 else 0)
                + List.length (map time_ms
                     (filter (fun m0 => key_eqb (key_of m0) k) df)))%nat)).
    + rewrite list_sum_map_add, key_indicator_sum, IH; auto.
      * intros m0 Hm0. apply Hcov. right. exact Hm0.
      * apply Hcov. left. reflexivity.
    + intro k. cbn [filter]. destruct (key_eqb (key_of m) k); reflexivity.
Qed.

Section RowProperties.

Variable sqrt : Q -> Q.

(** In every aggregated row the minimum, the mean and the maximum are
    finite numbers with [min <= max]; the minimum and the maximum are times
    of the row's group and bound every time of the group. *)
Theorem avg_row_min_max (df : list measurement) :
  Forall
    (fun r =>
       exists lo mu hi,
         min_time_ms r = Fin lo /\
         avg_time_ms r = Fin mu /\
         max_time_ms r = Fin hi /\
         lo <= hi /\
         In lo (group_times df (row_key r)) /\
         In hi (group_times df (row_key r)) /\
         forall t, In t (group_times df (row_key r)) -> lo <= t /\ t <= hi)
    (snd (load_data sqrt df)).
Proof.
  apply Forall_forall. intros r Hr.
  destruct (in_avg_df sqrt df r Hr) as [Hagg Hk].
  pose proof (group_times_nonempty df _ Hk) as Hne.
  assert (Hmin : min_time_ms r = agg_min (group_times df (row_key r)))
    by (rewrite Hagg at 1; reflexivity).
  assert (Havg : avg_time_ms r = agg_mean (group_times df (row_key r)))
    by (rewrite Hagg at 1; reflexivity).
  assert (Hmax : max_time_ms r = agg_max (group_times df (row_key r)))
    by (rewrite Hagg at 1; reflexivity).
  rewrite Hmin, Havg, Hmax.
  destruct (group_times df (row_key r)) as [|t ts]; [congruence|].
  destruct (fold_Qmin_spec ts t) as [Hlo_in Hlo].
  destruct (fold_Qmax_spec ts t) as [Hhi_in Hhi].
  exists (fold_left Qmin ts t), (Qmean (t :: ts)), (fold_left Qmax ts t).
  repeat split; auto.
Qed.

(** The aggregation loses and duplicates nothing: the group sizes of the
    aggregated rows add up to the number of measurements, and the time of
    every measurement is in the group of the one row that has its
    method, percentage and size. *)
Theorem load_data_partitions_measurements (df : list measurement) :
  list_sum
    (map (fun r => List.length (group_times df (row_key r)))
       (snd (load_data sqrt df)))
  = List.length df /\
  Forall
    (fun m =>
       exists r,
         In r (snd (load_data sqrt df)) /\
         row_key r = key_of m /\
         In (time_ms m) (group_times df (row_key r)) /\
         forall r', In r' (snd (load_data sqrt df)) ->
                    row_key r' = key_of m -> r' = r)
    df.
Proof.
  split.
  - unfold load_data. cbn [snd]. rewrite map_map.
    rewrite (map_ext _ (fun k => List.length (group_times df k)))
      by (intro k; rewrite row_key_aggregate; reflexivity).
    apply group_sizes_sum; [apply NoDup_group_keys|].
    intros m Hm. apply in_group_keys. apply in_map. exact Hm.
  - apply Forall_forall. intros m Hm.
    exists (aggregate sqrt df (key_of m)).
    rewrite row_key_aggregate. repeat split.
    + unfold load_data. cbn [snd]. apply in_map.
      apply in_group_keys. apply in_map. exact Hm.
    + unfold group_times. apply in_map. apply filter_In.
      split; [exact Hm | apply key_eqb_spec; reflexivity].
    + intros r' Hr' E. destruct (in_avg_df sqrt df r' Hr') as [Hagg _].
      rewrite Hagg, E. reflexivity.
Qed.

End RowProperties.

(** ** The choice of the results file *)

(** The loop of [max]: the result is the starting item when nothing later
    has a greater key, and otherwise the first later item that exceeds
    everything before it and is not exceeded after it. *)
Lemma py_max_by_loop {A : Type} (key : A -> Q) (rest : list A) :
  forall best,
    (py_max_by key best rest = best /\
     forall g, In g rest -> key g <= key best)
    \/
    (exists pre post,
        rest = (pre ++ py_max_by key best rest :: post)%list /\
        key best < key (py_max_by key best rest) /\
        (forall g, In g pre -> key g < key (py_max_by key best rest)) /\
        (forall g, In g post -> key g <= key (py_max_by key best rest))).
Proof.
  unfold py_max_by.
  induction rest as [|x rest IH]; intro best; cbn [fold_left].
  - left. split; [reflexivity | intros g []].
  - destruct (Qltb (key best) (key x)) eqn:E.
    + apply Qltb_lt in E. right.
      destruct (IH x) as [[Hr Hall] | (pre & post & Hd & Hlt & Hpre & Hpost)].
      * exists [], rest. rewrite Hr. repeat split; auto. intros g [].
      * exists (x :: pre), post. split; [cbn [app]; f_equal; exact Hd|].
        split; [lra|]. split; [|exact Hpost].
        intros g [<-|Hg]; [exact Hlt | apply Hpre; exact Hg].
    + apply Qltb_ge in E.
      destruct (IH best) as [[Hr Hall] | (pre & post & Hd & Hlt & Hpre & Hpost)].
      * left. split; [exact Hr|].
        intros g [<-|Hg]; [exact E | apply Hall; exact Hg].
      * right. exists (x :: pre), post.
        split; [cbn [app]; f_equal; exact Hd|].
        split; [exact Hlt|]. split; [|exact Hpost].
        intros g [<-|Hg]; [lra | apply Hpre; exact Hg].
Qed.

(** [find_results_file] returns nothing exactly when no file matches, and
    otherwise a matching file that was modified last; among several files
    with that latest time, the first one of the listing. *)
Theorem find_results_file_most_recent (files : list string)
  (getmtime : string -> Q) :
  (find_results_file files getmtime = None <-> files = []) /\
  (forall f,
      find_results_file files getmtime = Some f ->
      exists pre post,
        files = (pre ++ f :: post)%list /\
        (forall g, In g pre -> getmtime g < getmtime f) /\
        (forall g, In g post -> getmtime g <= getmtime f)).
Proof.
  split.
  - destruct files; simpl; split; intro H; congruence.
  - intros f Hf. destruct files as [|f0 rest]; [discriminate|].
    simpl in Hf. inversion Hf as [Hf']; clear Hf.
    destruct (py_max_by_loop getmtime rest f0)
      as [[Hr Hall] | (pre & post & Hd & Hlt & Hpre & Hpost)].
    + rewrite Hr. exists [], rest. repeat split; auto. intros g [].
    + exists (f0 :: pre), post. split; [cbn [app]; f_equal; exact Hd|].
      split; [|exact Hpost].
      intros g [<-|Hg]; [exact Hlt | apply Hpre; exact Hg].
Qed.

(** ** The complexity summary on the console *)

Section SummaryProperties.

Variable ln : Q -> Q.
Variable sqrt : Q -> Q.
Variable curve_fit : callable -> array -> array -> list Q -> Z -> result (list Q).
Variable format_s : nat -> string -> string.
Variable format_3f : num -> string.

Lemma print_summary_all_selected (d : dict analysis) :
  (forall m a, In (m, a) d -> best_model a <> None) ->
  exists lines,
    print_summary format_s format_3f d = (lines, None) /\
    List.length lines = List.length d.
Proof.
  induction d as [|[m a] d IH]; intro H.
  - exists []. split; reflexivity.
  - destruct IH as (lines & Hp & Hl).
    { intros m' a' Hin. apply (H m' a'). right. exact Hin. }
    cbn [print_summary]. unfold summary_line.
    destruct (best_model a) as [c|] eqn:E.
    + rewrite Hp. eexists. split; [reflexivity|]. simpl. rewrite Hl.
      reflexivity.
    + exfalso. apply (H m a); [left; reflexivity | exact E].
Qed.

Lemma print_summary_first_missing (pre post : dict analysis) (m : string)
  (a : analysis) :
  (forall m' a', In (m', a') pre -> best_model a' <> None) ->
  best_model a = None ->
  exists lines,
    print_summary format_s format_3f (pre ++ (m, a) :: post)%list
    = (lines, Some TypeError) /\
    List.length lines = List.length pre.
Proof.
  intros Hpre Ha. induction pre as [|[m0 a0] pre IH].
  - exists []. cbn [app print_summary]. unfold summary_line. rewrite Ha.
    split; reflexivity.
  - destruct IH as (lines & Hp & Hl).
    { intros m' a' Hin. apply (Hpre m' a'). right. exact Hin. }
    cbn [app print_summary]. unfold summary_line.
    destruct (best_model a0) as [c|] eqn:E.
    + rewrite Hp. eexists. split; [reflexivity|]. simpl. rewrite Hl.
      reflexivity.
    + exfalso. apply (Hpre m0 a0); [left; reflexivity | exact E].
Qed.

Lemma print_summary_some_missing (d : dict analysis) :
  (exists m a, In (m, a) d /\ best_model a = None) ->
  snd (print_summary format_s format_3f d) = Some TypeError.
Proof.
  induction d as [|[m0 a0] d IH]; intros (m & a & Hin & Ha);
    [destruct Hin|].
  cbn [print_summary]. unfold summary_line.
  destruct (best_model a0) as [c|] eqn:E; [|reflexivity].
  destruct Hin as [Heq|Hin]; [inversion Heq; subst; congruence|].
  specialize (IH (ex_intro _ m (ex_intro _ a (conj Hin Ha)))).
  destruct (print_summary format_s format_3f d). exact IH.
Qed.

(** The complexity summary that ends [main] prints one line per method
    as long as each has a selected model.  At the first method without
    one the format [:12s] of [None] raises [TypeError]: only the lines of
    the methods before it are printed.  So when every model failed for
    some method, the summary of the analysis raises [TypeError]. *)
Theorem print_summary_raises_without_model (avg_df : list avg_row) :
  (forall d,
      (forall m a, In (m, a) d -> best_model a <> None) ->
      exists lines,
        print_summary format_s format_3f d = (lines, None) /\
        List.length lines = List.length d) /\
  (forall pre m a post,
      (forall m' a', In (m', a') pre -> best_model a' <> None) ->
      best_model a = None ->
      exists lines,
        print_summary format_s format_3f (pre ++ (m, a) :: post)%list
        = (lines, Some TypeError) /\
        List.length lines = List.length pre) /\
  (exists results,
      plot_individual_methods ln sqrt curve_fit avg_df = Ok results /\
      ((exists m a,
           In (m, a) results /\
           forall k v, In (k, v) (fit_results a) -> v = None) ->
       snd (print_summary format_s format_3f results) = Some TypeError)).
Proof.
  split; [exact print_summary_all_selected|].
  split; [intros pre m a post; apply print_summary_first_missing|].
  rewrite plot_individual_methods_table. eexists. split; [reflexivity|].
  intros (m & a & Hin & Hnone).
  apply print_summary_some_missing. exists m, a. split; [exact Hin|].
  destruct (in_plot_results ln sqrt curve_fit avg_df m a Hin) as (-> & _).
  unfold method_analysis in *. cbn [fit_results best_model] in *.
  rewrite (all_failed_no_selection _ Hnone). reflexivity.
Qed.

End SummaryProperties.

(** An instance: with an optimiser that never converges the summary of
    the scenario prints nothing and raises. *)
Example summary_of_failed_fits_raises :
  match main Sample.ln Sample.sqrt Sample.curve_fit_diverges
          Sample.format_4f Sample.format_params Sample.scenario with
  | Ok (results, _) =>
      print_summary SampleFormat.format_s SampleFormat.format_3f results
  | Raise e => ([], Some e)
  end
  = ([], Some TypeError).
Proof. vm_compute. reflexivity. Qed.

(** ** A method without a selected model: claim C5 *)

(** C5: when every model fails for a method, the selector returns no model
    ([None], with the score left at -inf) without raising, and the loop over
    the methods still returns an analysis for every method.  The report
    [generate_summary_report] writes carries the absence: it holds the lines
    of that method with [Best fit model: None] and no parameter line.  The
    complexity summary that ends [main] does not: at that method the format
    [:12s] of [None] raises [TypeError], so the run ends with an exception
    once the report is written. *)
Theorem no_model_selected_report_and_summary
  (ln sqrt : Q -> Q)
  (curve_fit : callable -> array -> array -> list Q -> Z -> result (list Q))
  (format_4f : num -> string) (format_params : dict Q -> string)
  (format_s : nat -> string -> string) (format_3f : num -> string)
  (df : list measurement) :
  exists results report,
    main ln sqrt curve_fit format_4f format_params df = Ok (results, report) /\
    report = generate_summary_report format_4f format_params results /\
    keys results = unique String.eqb (map method (snd (load_data sqrt df))) /\
    forall m a,
      In (m, a) results ->
      (forall k v, In (k, v) (fit_results a) -> v = None) ->
      determine_best_model (fit_results a) = (None, NInf) /\
      best_model a = None /\
      best_r2 a = NInf /\
      (exists before after,
          report
          = (before
             ++ [ ("Method: " ++ m)%string;
                  "  Best fit model: None";
                  ("  R² score: " ++ format_4f NInf)%string;
                  "" ]
             ++ after)%list) /\
      exists printed,
        main_with_summary ln sqrt curve_fit format_4f format_params
          format_s format_3f df
        = (report, printed, Some TypeError).
Proof.
  unfold main_with_summary, main, load_data.
  rewrite plot_individual_methods_table. cbn [bind snd].
  eexists. eexists. split; [reflexivity|]. split; [reflexivity|]. split.
  - unfold keys. rewrite map_map. simpl. apply map_id.
  - intros m a Hin Hnone.
    destruct (in_plot_results ln sqrt curve_fit _ m a Hin) as (Ea & _).
    assert (Hsel : determine_best_model (fit_results a) = (None, NInf))
      by (apply all_failed_no_selection; exact Hnone).
    assert (Hbest : best_model a = None).
    { rewrite Ea in Hsel |- *. unfold method_analysis in *.
      cbn [fit_results best_model] in *. rewrite Hsel. reflexivity. }
    assert (Hr2 : best_r2 a = NInf).
    { rewrite Ea in Hsel |- *. unfold method_analysis in *.
      cbn [fit_results best_r2] in *. rewrite Hsel. reflexivity. }
    split; [exact Hsel|]. split; [exact Hbest|]. split; [exact Hr2|]. split.
    + destruct (report_method_in_report format_4f format_params _ m a Hin)
        as (before & after & E).
      exists before, after. rewrite E.
      unfold report_method, get_best. rewrite Hbest, Hr2. reflexivity.
    + pose proof (print_summary_some_missing format_s format_3f _
                    (ex_intro _ m (ex_intro _ a (conj Hin Hbest)))) as Hp.
      destruct (print_summary format_s format_3f _) as [printed e].
      cbn [snd] in Hp. subst e. exists printed. reflexivity.
Qed.

(** An instance: a method measured at a single size.  The optimiser
    refuses one point for two or three parameters, every model fails, the
    report says so and the summary raises. *)
Example single_size_method_run :
  main_with_summary Sample.ln Sample.sqrt Sample.curve_fit
    Sample.format_4f Sample.format_params
    SampleFormat.format_s SampleFormat.format_3f
    [ Sample.row "kmeans" 10 100 5 ]
  = ([ "Method: kmeans"; "  Best fit model: None"; "  R² score: -inf"; "" ],
     [],
     Some TypeError).
Proof. vm_compute. reflexivity. Qed.

(** ** The tables of sizes against times *)

Lemma Sorted_lt_of_leb (l : list Z) :
  Sorted (fun a b => Z.leb a b = true) l -> NoDup l -> Sorted Z.lt l.
Proof.
  induction 1 as [|x l Hs IH Hhd]; intro Hnd; constructor.
  - apply IH. inversion Hnd; assumption.
  - inversion Hnd as [|? ? Hx _]; subst.
    destruct Hhd as [|y l Hxy]; constructor.
    apply Z.leb_le in Hxy.
    assert (x <> y) by (intro E; subst; apply Hx; left; reflexivity).
    lia.
Qed.

Lemma Zeqb_spec (x y : Z) : Z.eqb x y = true <-> x = y.
Proof. apply Z.eqb_eq. Qed.

Lemma sorted_sizes (l : list Z) :
  Sorted Z.lt (sort_by Z.leb (unique Z.eqb l)) /\
  forall s, In s (sort_by Z.leb (unique Z.eqb l)) <-> In s l.
Proof.
  split.
  - apply Sorted_lt_of_leb.
    + apply sort_by_sorted. intros a b H.
      apply Z.leb_gt in H. apply Z.leb_le. lia.
    + eapply Permutation_NoDup; [apply sort_by_perm|].
      apply NoDup_unique, Zeqb_spec.
  - intro s. rewrite <- (in_unique Z.eqb l Zeqb_spec s).
    split; intro H.
    + eapply Permutation_in; [symmetry; apply sort_by_perm | exact H].
    + eapply Permutation_in; [apply sort_by_perm | exact H].
Qed.

(** Two strictly ascending lists with the same members are equal. *)
Lemma strictly_sorted_ext (l1 : list Z) :
  forall l2,
    Sorted Z.lt l1 -> Sorted Z.lt l2 ->
    (forall x, In x l1 <-> In x l2) -> l1 = l2.
Proof.
  induction l1 as [|a l1 IH]; intros [|b l2] H1 H2 Hext.
  - reflexivity.
  - exfalso. apply (proj2 (Hext b)). left. reflexivity.
  - exfalso. apply (proj1 (Hext a)). left. reflexivity.
  - apply Sorted_StronglySorted in H1; [|exact Z.lt_trans].
    apply Sorted_StronglySorted in H2; [|exact Z.lt_trans].
    inversion H1 as [|? ? Hs1 Ha]; subst.
    inversion H2 as [|? ? Hs2 Hb]; subst.
    rewrite Forall_forall in Ha, Hb.
    assert (Eab : a = b).
    { destruct (proj1 (Hext a) (or_introl eq_refl)) as [E|Hin]; [auto|].
      destruct (proj2 (Hext b) (or_introl eq_refl)) as [E|Hin']; [auto|].
      specialize (Hb _ Hin). specialize (Ha _ Hin'). lia. }
    subst b. f_equal. apply IH.
    + apply StronglySorted_Sorted. exact Hs1.
    + apply StronglySorted_Sorted. exact Hs2.
    + intro x. split; intro Hx.
      * destruct (proj1 (Hext x) (or_intror Hx)) as [E|Hin]; [|exact Hin].
        subst x. specialize (Ha _ Hx). lia.
      * destruct (proj2 (Hext x) (or_intror Hx)) as [E|Hin]; [|exact Hin].
        subst x. specialize (Hb _ Hx). lia.
Qed.

Section TableProperties.

Variable sqrt : Q -> Q.
Variable format_size_15 : Z -> string.
Variable format_time_20 : num -> string.
Variable format_size_12 : Z -> string.
Variable format_time_16 : num -> string.

Lemma avg_df_sizes (df : list measurement) (s : Z) :
  In s (map num_instances (snd (load_data sqrt df)))
  <-> In s (map m_num_instances df).
Proof.
  rewrite !in_map_iff. split.
  - intros (r & <- & Hr).
    destruct (avg_row_has_measurement sqrt df r Hr) as (m & Hm & E).
    exists m. split; [|exact Hm]. inversion E. reflexivity.
  - intros (m & <- & Hm).
    exists (aggregate sqrt df (key_of m)). split.
    + destruct m. reflexivity.
    + unfold load_data. cbn [snd]. apply in_map.
      apply in_group_keys. apply in_map. exact Hm.
Qed.



(** The console table of [main] takes its sizes from the measurements and
    the report takes them from the aggregation: they are the same list, so
    both tables have the same rows, and the cells of both are read by the
    same selection. *)
Theorem console_table_matches_report (df : list measurement) :
  console_sizes df = report_sizes (snd (load_data sqrt df)) /\
  List.length (console_data_rows format_size_12 format_time_16 df
                 (snd (load_data sqrt df)))
  = List.length (report_data_rows format_size_15 format_time_20
                   (snd (load_data sqrt df))).
Proof.
  assert (E : console_sizes df = report_sizes (snd (load_data sqrt df))).
  { unfold console_sizes, report_sizes.
    destruct (sorted_sizes (map m_num_instances df)) as [H1 Hin1].
    destruct (sorted_sizes (map num_instances (snd (load_data sqrt df))))
      as [H2 Hin2].
    apply strictly_sorted_ext; [exact H1 | exact H2|].
    intro x. rewrite Hin1, Hin2, avg_df_sizes. reflexivity. }
  split; [exact E|].
  unfold console_data_rows, report_data_rows. rewrite !length_map, E.
  reflexivity.
Qed.

End TableProperties.

(** The tables of the scenario: the sizes 100, 200 and 400, and no cell
    for a method that was not measured. *)
Example scenario_table :
  report_sizes (snd (load_data Sample.sqrt Sample.scenario))
  = [100%Z; 200%Z; 400%Z] /\
  console_sizes Sample.scenario = [100%Z; 200%Z; 400%Z] /\
  table_cell (snd (load_data Sample.sqrt Sample.scenario)) "A" 200
  = Some (Fin (42 # 2)) /\
  table_cell (snd (load_data Sample.sqrt Sample.scenario)) "kmeans" 200
  = None.
Proof. repeat split; vm_compute; reflexivity. Qed.

(** ** A single observation *)

(** A series of one observation is stretched over predictions of any
    length, also none: scoring raises nothing, the coefficient of
    determination is exactly 0 and the error is some float. *)
Theorem single_observation_never_raises (sqrt : Q -> Q) (t : Q) (p : array) :
  score_r_squared [Fin t] p = Ok (Fin 0) /\
  exists e, score_rmse sqrt [Fin t] p = Ok e.
Proof.
  assert (Hsub : exists d, arr_sub [Fin t] p = Ok d).
  { unfold arr_sub, broadcast.
    destruct (Nat.eqb (List.length [Fin t]) (List.length p)); eauto. }
  destruct Hsub as (d & Hd). split.
  - destruct (score_r_squared [Fin t] p) as [r|e] eqn:E.
    + f_equal. apply (score_r_squared_constant [t] t p r).
      * intros x [<-|[]]. reflexivity.
      * exact E.
    + unfold score_r_squared in E. rewrite Hd in E. discriminate.
  - unfold score_rmse. rewrite Hd. cbn [bind]. eauto.
Qed.
